(** * mem0-mcp: the tool-dispatch and response-shaping layer of [src/index.ts]

    A shallow embedding of the call-tool request handler of the Mem0 MCP
    server, of its helpers [normalizeOneLine] and [round], and of the part
    of the ECMAScript runtime they rely on (strings as sequences of UTF-16
    code units, IEEE-754 binary64 numbers, [ToBoolean], [ToString],
    [ToNumber], [Number.prototype.toFixed], global regular-expression
    replacement of a character class, [String.prototype.trim],
    [Array.prototype.slice], [map] and [join]).

    Values are the values JSON can carry (plus [undefined], which property
    reads produce): the arguments of a tool call arrive as JSON-RPC and the
    memory store answers in JSON.  The conversions [String(v)] and
    [Number(v)] throw on the values that have no primitive, and the throw
    travels to the catch-all of the handler; the limits of an engine
    (stack depth, string length) are not part of the model. *)

From Stdlib Require Import List NArith ZArith Bool Lia.
From Stdlib Require Import Ascii String.
From Stdlib Require Import Floats.SpecFloat.
Import ListNotations.

(** ** ECMAScript strings *)

Module JS.

(** A string is a sequence of UTF-16 code units. *)
Definition jsstring : Type := list N.

(** The code units of an ASCII literal of the source. *)
Definition lit (s : string) : jsstring :=
  map N_of_ascii (list_ascii_of_string s).

Definition code_eqb (a b : N) : bool := N.eqb a b.

Fixpoint str_eqb (s t : jsstring) : bool :=
  match s, t with
  | [], [] => true
  | a :: s', b :: t' => code_eqb a b && str_eqb s' t'
  | _, _ => false
  end.

Definition SPACE : N := 32%N.

(** The character class [[\r\n\t]]. *)
Definition is_crlftab (c : N) : bool :=
  (N.eqb c 13 || N.eqb c 10 || N.eqb c 9)%N.

(** The character class [\s], which is also the set [trim] strips and the
    set [StrWhiteSpaceChar] of numeric string literals: the code points of
    the WhiteSpace and LineTerminator productions. *)
Definition is_space (c : N) : bool :=
  ((9 <=? c) && (c <=? 13)          (* TAB, LF, VT, FF, CR *)
   || N.eqb c 32                    (* SPACE *)
   || N.eqb c 160                   (* NO-BREAK SPACE *)
   || N.eqb c 5760                  (* U+1680 *)
   || (8192 <=? c) && (c <=? 8202)  (* U+2000 .. U+200A *)
   || N.eqb c 8232 || N.eqb c 8233  (* LINE and PARAGRAPH SEPARATOR *)
   || N.eqb c 8239 || N.eqb c 8287  (* U+202F, U+205F *)
   || N.eqb c 12288                 (* U+3000 *)
   || N.eqb c 65279)%N.             (* U+FEFF *)

(** [s.replace(/C+/g, ' ')] for a character class [C]: every maximal run of
    code units of the class becomes one space.  [in_run] tells that the
    previous code unit belonged to the match being replaced. *)
Fixpoint replace_runs (cls : N -> bool) (in_run : bool) (s : jsstring)
  : jsstring :=
  match s with
  | [] => []
  | c :: s' =>
      if cls c
      then if in_run then replace_runs cls true s'
           else SPACE :: replace_runs cls true s'
      else c :: replace_runs cls false s'
  end.

Definition replace_all_runs (cls : N -> bool) (s : jsstring) : jsstring :=
  replace_runs cls false s.

Fixpoint trimStart (s : jsstring) : jsstring :=
  match s with
  | [] => []
  | c :: s' => if is_space c then trimStart s' else s
  end.

Definition trimEnd (s : jsstring) : jsstring := rev (trimStart (rev s)).

(** [String.prototype.trim]. *)
Definition trim (s : jsstring) : jsstring := trimEnd (trimStart s).

(** [Array.prototype.join] on an array of strings. *)
Fixpoint join (sep : jsstring) (l : list jsstring) : jsstring :=
  match l with
  | [] => []
  | [s] => s
  | s :: l' => s ++ sep ++ join sep l'
  end.

(** ** ECMAScript numbers

    A Number is an IEEE-754 binary64 value, here a [spec_float] of the
    Standard Library with precision 53 and maximal exponent 1024; a finite
    non-zero one is [(-1)^s * m * 2^e]. *)

Definition number : Type := spec_float.

Definition prec : Z := 53.
Definition emax : Z := 1024.

Definition NaN : number := S754_nan.
Definition pos_zero : number := S754_zero false.

(** The exact value [m * 2^e] as a fraction of non-negative integers. *)
Definition frac_of (m : positive) (e : Z) : Z * Z :=
  match e with
  | Zneg p => (Zpos m, 2 ^ Zpos p)
  | _ => (Zpos m * 2 ^ e, 1)
  end%Z.

(** The Number value for the rational [p / q] ([0 <= p], [0 < q]) with sign
    [neg]: round to nearest, ties to even, overflow to infinity.  The
    quotient keeps 1100 fractional bits, below half of the smallest
    subnormal step [2^-1074]; the remainder gives the rounding direction. *)
Definition round_rat (neg : bool) (p q : Z) : number :=
  let '(quo, rem) := Z.div_eucl (p * 2 ^ 1100) q in
  binary_round_aux prec emax neg quo (-1100) (new_location q rem).

Definition of_Z (z : Z) : number := binary_normalize prec emax z 0 false.

(** [Number.isFinite] on a Number. *)
Definition Number_isFinite (x : number) : bool :=
  match x with
  | S754_zero _ | S754_finite _ _ _ => true
  | S754_infinity _ | S754_nan => false
  end.

(** Two finite values denote the same real number. *)
Definition same_value (y : number) (m : positive) (e : Z) : bool :=
  match y with
  | S754_finite false my ey =>
      if (e <=? ey)%Z then (Zpos my * 2 ^ (ey - e) =? Zpos m)%Z
      else (Zpos my =? Zpos m * 2 ^ (e - ey))%Z
  | _ => false
  end.

(** *** Decimal digits *)

Definition is_digit (c : N) : bool := ((48 <=? c) && (c <=? 57))%N.

Fixpoint uint_codes (u : Decimal.uint) : jsstring :=
  match u with
  | Decimal.Nil => []
  | Decimal.D0 u => 48%N :: uint_codes u
  | Decimal.D1 u => 49%N :: uint_codes u
  | Decimal.D2 u => 50%N :: uint_codes u
  | Decimal.D3 u => 51%N :: uint_codes u
  | Decimal.D4 u => 52%N :: uint_codes u
  | Decimal.D5 u => 53%N :: uint_codes u
  | Decimal.D6 u => 54%N :: uint_codes u
  | Decimal.D7 u => 55%N :: uint_codes u
  | Decimal.D8 u => 56%N :: uint_codes u
  | Decimal.D9 u => 57%N :: uint_codes u
  end.

(** The decimal representation of a non-negative integer, without leading
    zeros ([0] is ["0"]). *)
Definition decimal_digits (n : Z) : jsstring :=
  uint_codes (N.to_uint (Z.to_N n)).

Definition zeros (n : nat) : jsstring := repeat 48%N n.

(** *** [Number::toString] in radix 10 *)

(** [v < 10^n] for [v = num / den]. *)
Definition below_pow10 (num den n : Z) : bool :=
  (if 0 <=? n then num <? den * 10 ^ n else num * 10 ^ (- n) <? den)%Z.

Fixpoint find_exponent (num den : Z) (fuel : nat) (n : Z) : Z :=
  match fuel with
  | O => n
  | S fuel' =>
      if below_pow10 num den n then n
      else find_exponent num den fuel' (n + 1)
  end.

(** Where the search starts: [2^b <= num/den] for
    [b = log2 num - log2 den - 1], and [0.30102 < log10 2 < 0.30103], so
    that [10^(n0 - 1) <= num/den] for the [n0] below. *)
Definition exponent_estimate (num den : Z) : Z :=
  let b := (Z.log2 num - Z.log2 den - 1)%Z in
  ((if 0 <=? b then b * 30102 else b * 30103) / 100000 + 1)%Z.

(** The integer [n] with [10^(n-1) <= num/den < 10^n], searched upwards
    from the estimate, which is less than 3 below it. *)
Definition decimal_exponent (num den : Z) : Z :=
  find_exponent num den 8 (exponent_estimate num den).

(** [num/den / 10^(n-k)] as a fraction. *)
Definition scaled (num den n k : Z) : Z * Z :=
  (if n <=? k then (num * 10 ^ (k - n), den)
   else (num, den * 10 ^ (n - k)))%Z.

(** Does the decimal [s * 10^(n-k)] denote the Number [m * 2^e]? *)
Definition reads_back (s n k : Z) (m : positive) (e : Z) : bool :=
  (if k <=? n then same_value (round_rat false (s * 10 ^ (n - k)) 1) m e
   else same_value (round_rat false s (10 ^ (k - n))) m e)%Z.

(** The candidate with [k] digits: the one of the two integers around the
    scaled value that reads back as the number, the closer one (the even
    one on a tie) when both do. *)
Definition candidate (num den n k : Z) (m : positive) (e : Z) : option Z :=
  let '(a, b) := scaled num den n k in
  let lo := (a / b)%Z in
  let hi := (lo + 1)%Z in
  match reads_back lo n k m e, reads_back hi n k m e with
  | true, true =>
      match (2 * (a - lo * b) ?= b)%Z with
      | Lt => Some lo
      | Gt => Some hi
      | Eq => Some (if Z.even lo then lo else hi)
      end
  | true, false => Some lo
  | false, true => Some hi
  | false, false => None
  end.

(** The fewest digits: the first [k] that has a candidate. *)
Fixpoint shortest (num den n : Z) (m : positive) (e : Z) (fuel : nat) (k : Z)
  : Z * Z :=
  match fuel with
  | O => (fst (scaled num den n k) / snd (scaled num den n k), k)%Z
  | S fuel' =>
      match candidate num den n k m e with
      | Some s => (s, k)
      | None => shortest num den n m e fuel' (k + 1)
      end
  end.

Definition exponent_part (n : Z) : jsstring :=
  lit "e" ++ (if (0 <=? n - 1)%Z then lit "+" else lit "-")
          ++ decimal_digits (Z.abs (n - 1)).

(** The digits [ds] (there are [k] of them) with decimal exponent [n]. *)
Definition format_number (ds : jsstring) (k n : Z) : jsstring :=
  if ((-5 <=? n) && (n <=? 21))%Z then
    if (k <=? n)%Z then ds ++ zeros (Z.to_nat (n - k))
    else if (0 <? n)%Z then
      firstn (Z.to_nat n) ds ++ lit "." ++ skipn (Z.to_nat n) ds
    else lit "0." ++ zeros (Z.to_nat (- n)) ++ ds
  else
    match ds with
    | [d] => [d] ++ exponent_part n
    | d :: ds' => [d] ++ lit "." ++ ds' ++ exponent_part n
    | [] => []
    end.

Definition positive_toString (m : positive) (e : Z) : jsstring :=
  let '(num, den) := frac_of m e in
  let n := decimal_exponent num den in
  let '(s, k) := shortest num den n m e 17 1 in
  (* only [9.99..] rounding up to the next power of ten *)
  if (s =? 10 ^ k)%Z then format_number (lit "1") 1 (n + 1)
  else format_number (decimal_digits s) k n.

Definition Number_toString (x : number) : jsstring :=
  match x with
  | S754_nan => lit "NaN"
  | S754_zero _ => lit "0"
  | S754_infinity s => (if s then lit "-" else []) ++ lit "Infinity"
  | S754_finite s m e => (if s then lit "-" else []) ++ positive_toString m e
  end.

(** *** [Number.prototype.toFixed] *)

(** The integer [n] printed with [f] fraction digits. *)
Definition fixed_digits (n : Z) (f : nat) : jsstring :=
  let ds := decimal_digits n in
  match f with
  | O => ds
  | _ =>
      let ds := zeros (S f - List.length ds) ++ ds in
      let k := List.length ds in
      firstn (k - f) ds ++ lit "." ++ skipn (k - f) ds
  end.

(** [x.toFixed(f)]: the integer [n] for which [n / 10^f - |x|] is closest
    to zero, the larger one on a tie, computed on the exact value
    [num / den] of [|x|]; at [10^21] and above it is [ToString]. *)
Definition fixed_integer (num den : Z) (f : nat) : Z :=
  ((2 * num * 10 ^ Z.of_nat f + den) / (2 * den))%Z.

Definition Number_toFixed (x : number) (f : nat) : jsstring :=
  match x with
  | S754_nan | S754_infinity _ => Number_toString x
  | S754_zero _ => fixed_digits 0 f
  | S754_finite s m e =>
      let '(num, den) := frac_of m e in
      if (10 ^ 21 * den <=? num)%Z then Number_toString x
      else
        let n := fixed_integer num den f in
        (if s then lit "-" else []) ++ fixed_digits n f
  end.

(** *** [StringToNumber] *)

Fixpoint span (p : N -> bool) (s : jsstring) : jsstring * jsstring :=
  match s with
  | c :: s' =>
      if p c then let '(a, b) := span p s' in (c :: a, b) else ([], s)
  | [] => ([], [])
  end.

Definition digits_value (base : Z) (val : N -> Z) (ds : jsstring) : Z :=
  fold_left (fun acc c => (acc * base + val c)%Z) ds 0%Z.

Definition dec_val (c : N) : Z := (Z.of_N c - 48)%Z.

Definition is_hex (c : N) : bool :=
  (is_digit c || (65 <=? c) && (c <=? 70) || (97 <=? c) && (c <=? 102))%N.

Definition hex_val (c : N) : Z :=
  (if is_digit c then Z.of_N c - 48
   else if (c <=? 70)%N then Z.of_N c - 55 else Z.of_N c - 87)%Z.

Definition is_oct (c : N) : bool := ((48 <=? c) && (c <=? 55))%N.
Definition is_bin (c : N) : bool := ((48 <=? c) && (c <=? 49))%N.

(** A whole string of digits of the given base, at least one. *)
Definition parse_radix (base : Z) (ok : N -> bool) (val : N -> Z)
    (s : jsstring) : option number :=
  match span ok s with
  | ((_ :: _) as ds, []) => Some (round_rat false (digits_value base val ds) 1)
  | _ => None
  end.

(** [ExponentPart] or nothing, to the end of the string. *)
Definition parse_exponent (s : jsstring) : option Z :=
  match s with
  | [] => Some 0%Z
  | c :: s1 =>
      if (N.eqb c 101 || N.eqb c 69)%N then
        let '(neg, s2) :=
          match s1 with
          | 43%N :: s2 => (false, s2)
          | 45%N :: s2 => (true, s2)
          | _ => (false, s1)
          end in
        match span is_digit s2 with
        | ((_ :: _) as ds, []) =>
            let x := digits_value 10 dec_val ds in
            Some (if neg then (- x)%Z else x)
        | _ => None
        end
      else None
  end.

(** [StrUnsignedDecimalLiteral] other than [Infinity]. *)
Definition parse_decimal (neg : bool) (s : jsstring) : option number :=
  let '(ip, s1) := span is_digit s in
  let '(fp, s2) :=
    match s1 with
    | 46%N :: s1' => span is_digit s1'
    | _ => ([], s1)
    end in
  match ip ++ fp with
  | [] => None
  | ds =>
      match parse_exponent s2 with
      | None => None
      | Some ex =>
          let mant := digits_value 10 dec_val ds in
          let ex := (ex - Z.of_nat (List.length fp))%Z in
          Some (if (mant =? 0)%Z then S754_zero neg
                else if (0 <=? ex)%Z then round_rat neg (mant * 10 ^ ex) 1
                else round_rat neg mant (10 ^ (- ex)))
      end
  end.

Definition parse_signed (neg : bool) (s : jsstring) : option number :=
  if str_eqb s (lit "Infinity") then Some (S754_infinity neg)
  else parse_decimal neg s.

Definition parse_numeric (s : jsstring) : option number :=
  match s with
  | 48%N :: c :: s' =>
      if (N.eqb c 120 || N.eqb c 88)%N then parse_radix 16 is_hex hex_val s'
      else if (N.eqb c 111 || N.eqb c 79)%N then parse_radix 8 is_oct dec_val s'
      else if (N.eqb c 98 || N.eqb c 66)%N then parse_radix 2 is_bin dec_val s'
      else parse_signed false s
  | 43%N :: s' => parse_signed false s'
  | 45%N :: s' => parse_signed true s'
  | _ => parse_signed false s
  end.

(** [StringToNumber]: white space around the literal is ignored, the empty
    string is [+0], anything that is not a numeric literal is [NaN]. *)
Definition StringToNumber (s : jsstring) : number :=
  match trim s with
  | [] => pos_zero
  | t => match parse_numeric t with Some x => x | None => NaN end
  end.

(** ** ECMAScript values *)

#[local] Set Warnings "-register-all".


Inductive value : Type :=
| VUndefined
| VNull
| VBool (b : bool)
| VNum (x : number)
| VStr (s : jsstring)
| VArr (elems : list value)
| VObj (props : list (jsstring * value)).

(** [ToBoolean]. *)
Definition ToBoolean (v : value) : bool :=
  match v with
  | VUndefined | VNull => false
  | VBool b => b
  | VNum (S754_zero _) | VNum S754_nan => false
  | VNum _ => true
  | VStr [] => false
  | VStr _ => true
  | VArr _ | VObj _ => true
  end.

(** [a || b] and [a ?? b] on values. *)
Definition logical_or (a b : value) : value := if ToBoolean a then a else b.

Definition nullish_or (a b : value) : value :=
  match a with
  | VUndefined | VNull => b
  | _ => a
  end.

(** [s || d] on a string [s]: the empty string is the only falsy one. *)
Definition string_or (s d : jsstring) : jsstring :=
  match s with
  | [] => d
  | _ => s
  end.

(** *** Abrupt completions *)

(** What a [throw] or a rejected promise carries: an [Error] instance with
    its message, or any other value. *)
Inductive thrown : Type :=
| ErrorObject (message : jsstring)
| ThrownValue (v : value).

(** An operation of the runtime either throws or returns. *)
Definition and_then {A B : Type} (c : thrown + A) (k : A -> thrown + B)
  : thrown + B :=
  match c with
  | inl error => inl error
  | inr a => k a
  end.

(** The [TypeError] of [OrdinaryToPrimitive] and the [RangeError] of
    [toFixed].  The standard leaves the wording of a message to the
    engine; this is the wording of V8, the engine of Node, which the
    source names in its first line. *)
Definition TypeError_message : jsstring :=
  lit "Cannot convert object to primitive value".

Definition TypeError : thrown := ErrorObject TypeError_message.

Definition RangeError_message : jsstring :=
  lit "toFixed() digits argument must be between 0 and 100".

Definition RangeError : thrown := ErrorObject RangeError_message.

(** [Array.prototype.map] with a callback that may throw: the first
    throw ends the loop. *)
Section Array_map.

Context {A B : Type}.
Variable callback : A -> thrown + B.

Fixpoint Array_map (l : list A) : thrown + list B :=
  match l with
  | [] => inr []
  | x :: l' =>
      and_then (callback x) (fun y =>
      and_then (Array_map l') (fun ys => inr (y :: ys)))
  end.

End Array_map.

(** Does the object have an own property [key]? *)
Fixpoint has_own (key : jsstring) (props : list (jsstring * value)) : bool :=
  match props with
  | [] => false
  | (k, _) :: props' => str_eqb k key || has_own key props'
  end.

(** [ToString], which [String(v)] and a template literal apply.  An array
    joins the strings of its elements with commas ([null] and [undefined]
    elements give the empty string).  An object goes through
    [OrdinaryToPrimitive]: the inherited [toString] gives
    ["[object Object]"], but an own property [toString] hides it, and as
    no value of JSON is callable and the inherited [valueOf] returns the
    object itself, the conversion then throws a [TypeError]. *)
Fixpoint ToString (v : value) : thrown + jsstring :=
  match v with
  | VUndefined => inr (lit "undefined")
  | VNull => inr (lit "null")
  | VBool true => inr (lit "true")
  | VBool false => inr (lit "false")
  | VNum x => inr (Number_toString x)
  | VStr s => inr s
  | VArr elems =>
      and_then
        (Array_map (fun e => match e with
                             | VUndefined | VNull => inr []
                             | _ => ToString e
                             end) elems)
        (fun parts => inr (join (lit ",") parts))
  | VObj props =>
      if has_own (lit "toString") props then inl TypeError
      else inr (lit "[object Object]")
  end.

(** [ToNumber], which [Number(v)] applies; arrays and objects go through
    their string, and throw when it does. *)
Definition ToNumber (v : value) : thrown + number :=
  match v with
  | VUndefined => inr NaN
  | VNull => inr pos_zero
  | VBool true => inr (of_Z 1)
  | VBool false => inr pos_zero
  | VNum x => inr x
  | VStr s => inr (StringToNumber s)
  | VArr _ | VObj _ => and_then (ToString v) (fun s => inr (StringToNumber s))
  end.

(** [x.toFixed(f)] as a method call: the range of [f] is checked first. *)
Definition Number_prototype_toFixed (x : number) (f : nat)
  : thrown + jsstring :=
  if Nat.ltb 100 f then inl RangeError else inr (Number_toFixed x f).

(** The own property [key] of an object, [undefined] when there is none. *)
Fixpoint lookup (key : jsstring) (props : list (jsstring * value)) : value :=
  match props with
  | [] => VUndefined
  | (k, v) :: props' => if str_eqb k key then v else lookup key props'
  end.

(** [v?.key] for a property name that no built-in prototype defines
    ([memory], [score]): the property of an object, [undefined] for
    [null], [undefined], primitives and arrays. *)
Definition optional_get (v : value) (key : jsstring) : value :=
  match v with
  | VObj props => lookup key props
  | _ => VUndefined
  end.

Definition Array_isArray (v : value) : bool :=
  match v with
  | VArr _ => true
  | _ => false
  end.

Definition elements (v : value) : list value :=
  match v with
  | VArr elems => elems
  | _ => []
  end.

(** [a.slice(0, n)] and [a[0]]. *)
Definition slice0 (n : nat) (a : list value) : list value := firstn n a.
Definition index0 (a : list value) : value := nth 0 a VUndefined.

End JS.

Import JS.

(** ** Helpers of [src/index.ts] *)

(** [normalizeOneLine]: [(s ?? '').replace(/[\r\n\t]+/g, ' ')
    .replace(/\s+/g, ' ').trim()].  The argument is a string at both call
    sites ([String(...)]), so [s ?? ''] is [s]. *)
Definition normalizeOneLine (s : jsstring) : jsstring :=
  trim (replace_all_runs is_space (replace_all_runs is_crlftab s)).

(** [round(n, p = 3)]: [Number.isFinite(Number(n)) ?
    Number(Number(n).toFixed(p)) : n]; [Number(n)] and [toFixed] may
    throw. *)
Definition round (n : value) (p : nat) : thrown + value :=
  and_then (ToNumber n) (fun num =>
  if Number_isFinite num then
    and_then (Number_prototype_toFixed num p) (fun digits =>
    inr (VNum (StringToNumber digits)))
  else inr n).

(** ** The mem0ai client, at its boundary *)

Module Mem0.

Record Message : Type := { role : jsstring; content : value }.

Record Options : Type := { user_id : value }.

(** The outcome of awaiting [memoryClient.add] and [memoryClient.search]:
    the promise rejects or resolves with whatever the service answered. *)
Record MemoryClient : Type := {
  add : list Message -> Options -> thrown + value;
  search : value -> Options -> thrown + value
}.

End Mem0.

Import Mem0.

(** ** Effects: exceptions and [console.error] *)

Definition log_line : Type := (jsstring * thrown)%type.

(** A computation writes lines to the error console and either throws or
    returns. *)
Definition M (A : Type) : Type := (list log_line * (thrown + A))%type.

Definition ret {A : Type} (a : A) : M A := ([], inr a).

Definition throw {A : Type} (e : thrown) : M A := ([], inl e).

Definition bind {A B : Type} (m : M A) (k : A -> M B) : M B :=
  match m with
  | (out, inl e) => (out, inl e)
  | (out, inr a) => let '(out', r) := k a in (out ++ out', r)
  end.

Notation "x <- m ;; k" := (bind m (fun x => k))
  (at level 61, m at next level, right associativity).

(** [try { body } catch (error) { handler }]. *)
Definition try_catch {A : Type} (body : M A) (handler : thrown -> M A) : M A :=
  match body with
  | (out, inl e) => let '(out', r) := handler e in (out ++ out', r)
  | (out, inr a) => (out, inr a)
  end.

Definition await {A : Type} (outcome : thrown + A) : M A := ([], outcome).

(** A conversion of the runtime inside a computation. *)
Definition eval {A : Type} (completion : thrown + A) : M A := ([], completion).

Definition console_error (label : jsstring) (error : thrown) : M unit :=
  ([(label, error)], inr tt).

(** ** The server *)

Record Config : Type := { apiKey : jsstring; userId : jsstring }.

(** [request.params] of a call-tool request: the SDK's schema makes [name]
    a string and [arguments] an optional record. *)
Record CallToolRequest : Type := {
  name : jsstring;
  arguments : option (list (jsstring * value))
}.

Record ContentBlock : Type := { type : jsstring; text : jsstring }.

Record ToolResult : Type := { content : list ContentBlock; isError : bool }.

(** [error instanceof Error ? error.message : String(error)]. *)
Definition error_message (error : thrown) : thrown + jsstring :=
  match error with
  | ErrorObject message => inr message
  | ThrownValue v => ToString v
  end.

Section createServer.

Variable config : Config.
Variable memoryClient : MemoryClient.

(** [config.userId || 'mem0-mcp-user']. *)
Definition defaultUserId : jsstring :=
  string_or (userId config) (lit "mem0-mcp-user").

Definition addMemory (content userId : value) : M bool :=
  try_catch
    (let messages :=
       [ {| role := lit "system";
            Mem0.content := VStr (lit "Memory storage system") |};
         {| role := lit "user"; Mem0.content := content |} ] in
     _ <- await (add memoryClient messages
                   {| user_id := logical_or userId (VStr defaultUserId) |}) ;;
     ret true)
    (fun error =>
       _ <- console_error (lit "Error adding memory:") error ;;
       ret false).

Definition searchMemories (query userId : value) : M value :=
  try_catch
    (results <- await (search memoryClient query
                   {| user_id := logical_or userId (VStr defaultUserId) |}) ;;
     ret results)
    (fun error =>
       _ <- console_error (lit "Error searching memories:") error ;;
       ret (VArr [])).

(** One record of the [returnAll] listing: the body of the [map]
    callback. *)
Definition format_record (r : value) : thrown + jsstring :=
  and_then
    (ToString (nullish_or (optional_get r (lit "memory")) (VStr [])))
    (fun text =>
  let mem := normalizeOneLine text in
  and_then
    (round (nullish_or (optional_get r (lit "score")) (VNum pos_zero)) 3)
    (fun score =>
  and_then (ToString score) (fun shown =>
  inr (mem ++ lit " (relevance: " ++ shown ++ lit ")")))).

(** The body of the [try] block of the call-tool handler. *)
Definition handler_body (request : CallToolRequest) : M ToolResult :=
  let name := name request in
  match arguments request with
  | None => throw (ErrorObject (lit "No arguments provided"))
  | Some args =>
      if str_eqb name (lit "add-memory") then
        let content := lookup (lit "content") args in
        let userId := lookup (lit "userId") args in
        _ <- addMemory content userId ;;
        ret {| content :=
                 [ {| type := lit "text";
                      text := lit "Memory added successfully" |} ];
               isError := false |}
      else if str_eqb name (lit "search-memories") then
        let query := lookup (lit "query") args in
        let userId := lookup (lit "userId") args in
        let returnAll := lookup (lit "returnAll") args in
        results <- searchMemories query userId ;;
        if negb (Array_isArray results)
           || Nat.eqb (List.length (elements results)) 0
        then
          ret {| content :=
                   [ {| type := lit "text"; text := lit "No memories found" |} ];
                 isError := false |}
        else if ToBoolean returnAll then
          parts <-
            eval (Array_map format_record (slice0 5 (elements results))) ;;
          let formatted := join (lit "; ") parts in
          ret {| content :=
                   [ {| type := lit "text";
                        text :=
                          string_or formatted (lit "No memories found") |} ];
                 isError := false |}
        else
          let topResult := index0 (elements results) in
          text <-
            eval (ToString
                    (nullish_or (optional_get topResult (lit "memory"))
                       (VStr []))) ;;
          let memory := normalizeOneLine text in
          let response :=
            string_or memory (lit "No relevant memory found") in
          ret {| content := [ {| type := lit "text"; text := response |} ];
                 isError := false |}
      else
        ret {| content :=
                 [ {| type := lit "text";
                      text := lit "Unknown tool: " ++ name |} ];
               isError := true |}
  end.

(** The [catch] block of the call-tool handler. *)
Definition handler_catch (error : thrown) : M ToolResult :=
  message <- eval (error_message error) ;;
  ret {| content :=
           [ {| type := lit "text"; text := lit "Error: " ++ message |} ];
         isError := true |}.

(** The handler registered for [CallToolRequestSchema]. *)
Definition handler (request : CallToolRequest) : M ToolResult :=
  try_catch (handler_body request) handler_catch.

End createServer.

(** ** The remaining helper: [truncate] *)

(** The code unit of ['…'], U+2026. *)
Definition ELLIPSIS : N := 8230%N.

(** [s.slice(0, end)] for an integer [end]: a negative [end] counts from
    the end of the string, and the result is clamped to the string. *)
Definition String_slice0 (s : jsstring) (e : Z) : jsstring :=
  let len := Z.of_nat (List.length s) in
  let final := (if e <? 0 then Z.max (len + e) 0 else Z.min e len)%Z in
  firstn (Z.to_nat final) s.

(** [truncate(s, max = 3500)]: [if (!s) return s;
    return s.length > max ? s.slice(0, max - 1) + '…' : s], for an
    integer [max]. *)
Definition truncate (s : jsstring) (max : Z) : jsstring :=
  match s with
  | [] => s
  | _ =>
      if (Z.of_nat (List.length s) >? max)%Z
      then String_slice0 s (max - 1) ++ [ELLIPSIS]
      else s
  end.

(** ** The tool catalog *)

Record SchemaProperty : Type := {
  property_type : jsstring;
  property_description : jsstring
}.

Record InputSchema : Type := {
  schema_type : jsstring;
  properties : list (jsstring * SchemaProperty);
  required : list jsstring
}.

Record Tool : Type := {
  tool_name : jsstring;
  tool_description : jsstring;
  inputSchema : InputSchema
}.

Definition ADD_MEMORY_TOOL : Tool :=
  {| tool_name := lit "add-memory";
     tool_description :=
       lit "Add a new memory. This method is called everytime the user informs anything about themselves, their preferences, or anything that has any relevent information whcih can be useful in the future conversation. This can also be called when the user asks you to remember something.";
     inputSchema :=
       {| schema_type := lit "object";
          properties :=
            [ (lit "content",
               {| property_type := lit "string";
                  property_description :=
                    lit "The content to store in memory" |});
              (lit "userId",
               {| property_type := lit "string";
                  property_description :=
                    lit "User ID for memory storage. If not provided explicitly, use a generic user ID like, 'mem0-mcp-user'" |}) ];
          required := [lit "content"; lit "userId"] |} |}.

Definition SEARCH_MEMORIES_TOOL : Tool :=
  {| tool_name := lit "search-memories";
     tool_description :=
       lit "Search through stored memories. This method is called ANYTIME the user asks anything.";
     inputSchema :=
       {| schema_type := lit "object";
          properties :=
            [ (lit "query",
               {| property_type := lit "string";
                  property_description :=
                    lit "The search query. This is the query that the user has asked for. Example: 'What did I tell you about the weather last week?' or 'What did I tell you about my friend John?'" |});
              (lit "userId",
               {| property_type := lit "string";
                  property_description :=
                    lit "User ID for memory storage. If not provided explicitly, use a generic user ID like, 'mem0-mcp-user'" |});
              (lit "returnAll",
               {| property_type := lit "boolean";
                  property_description :=
                    lit "If true, returns all matching memories with scores. If false (default), returns only the most relevant memory." |}) ];
          required := [lit "query"; lit "userId"] |} |}.

(** The [tools] array that the handler registered for
    [ListToolsRequestSchema] returns. *)
Definition ListTools_handler : list Tool :=
  [ADD_MEMORY_TOOL; SEARCH_MEMORIES_TOOL].

(** The two messages [addMemory] sends for a content. *)
Definition exchange (content : value) : list Message :=
  [ {| role := lit "system";
       Mem0.content := VStr (lit "Memory storage system") |};
    {| role := lit "user"; Mem0.content := content |} ].

(** A code unit that is not white space. *)
Definition is_ink (c : N) : bool := negb (is_space c).

(** ** Predicates of the specification *)

(** Every white-space code unit of [s] is a SPACE that follows a code unit
    that is not white space; [after_space] tells whether a SPACE came just
    before [s]. *)
Fixpoint spaced (after_space : bool) (s : jsstring) : bool :=
  match s with
  | [] => true
  | c :: s' =>
      if is_space c then N.eqb c SPACE && negb after_space && spaced true s'
      else spaced false s'
  end.

(** [spaced], and [s] does not end in a SPACE. *)
Fixpoint tight (after_space : bool) (s : jsstring) : bool :=
  match s with
  | [] => negb after_space
  | c :: s' =>
      if is_space c then N.eqb c SPACE && negb after_space && tight true s'
      else tight false s'
  end.

(** A single-line, trimmed string: no CR, LF, TAB or other white space but
    single SPACEs, none of them first or last. *)
Definition one_line (s : jsstring) : bool :=
  match s with
  | [] => true
  | _ => tight true s
  end.

(** [trimEnd] by recursion from the left. *)
Fixpoint strip_end (s : jsstring) : jsstring :=
  match s with
  | [] => []
  | c :: s' =>
      match strip_end s' with
      | [] => if is_space c then [] else [c]
      | t => c :: t
      end
  end.

(** ** Sample data: the records of the specification's examples *)

Definition sample_config : Config :=
  {| apiKey := lit "m0-key"; userId := lit "mem0-mcp-user" |}.

(** A memory store that is down: both operations reject. *)
Definition failing_client : MemoryClient :=
  {| add := fun _ _ => inl (ErrorObject (lit "fetch failed"));
     search := fun _ _ => inl (ErrorObject (lit "fetch failed")) |}.

(** A memory store whose search resolves with [results]. *)
Definition client_returning (results : value) : MemoryClient :=
  {| add := fun _ _ => inr VNull;
     search := fun _ _ => inr results |}.

(** The Number that the literal [0.8765] denotes: the binary64 value
    nearest to it, [7894810146780479 / 2^53]. *)
Definition score_0_8765 : number := S754_finite false 7894810146780479 (-53).

(** The Number [0.5]. *)
Definition score_0_5 : number := S754_finite false 4503599627370496 (-53).

(** [[{memory: "Loves\n\nhiking", score: 0.8765},
      {memory: "Owns a dog", score: 0.5}]]. *)
Definition sample_records : value :=
  VArr
    [ VObj [ (lit "memory", VStr (lit "Loves" ++ [10; 10]%N ++ lit "hiking"));
             (lit "score", VNum score_0_8765) ];
      VObj [ (lit "memory", VStr (lit "Owns a dog"));
             (lit "score", VNum score_0_5) ] ].

Definition sample_args : list (jsstring * value) :=
  [ (lit "query", VStr (lit "What does the user like?"));
    (lit "content", VStr (lit "Loves hiking"));
    (lit "userId", VStr (lit "alice")) ].

Definition search_request (args : list (jsstring * value)) : CallToolRequest :=
  {| name := lit "search-memories"; arguments := Some args |}.

Definition add_request (args : list (jsstring * value)) : CallToolRequest :=
  {| name := lit "add-memory"; arguments := Some args |}.

(** The result every branch of the handler builds: one text block. *)
Definition text_result (t : jsstring) (err : bool) : ToolResult :=
  {| content := [ {| type := lit "text"; text := t |} ]; isError := err |}.

(** The adapter call that [searchMemories] makes for an argument bag. *)
Definition search_outcome (config : Config) (memoryClient : MemoryClient)
    (args : list (jsstring * value)) : thrown + value :=
  search memoryClient (lookup (lit "query") args)
    {| user_id := logical_or (lookup (lit "userId") args)
                    (VStr (defaultUserId config)) |}.

(** The adapter call that [addMemory] makes for an argument bag. *)
Definition add_outcome (config : Config) (memoryClient : MemoryClient)
    (args : list (jsstring * value)) : thrown + value :=
  add memoryClient
    [ {| role := lit "system";
         Mem0.content := VStr (lit "Memory storage system") |};
      {| role := lit "user"; Mem0.content := lookup (lit "content") args |} ]
    {| user_id := logical_or (lookup (lit "userId") args)
                    (VStr (defaultUserId config)) |}.

(** The text that the search case builds from a non-empty array of
    records, or what building it throws: the listing when [returnAll] is
    truthy, the memory of the first record otherwise. *)
Definition search_text (args : list (jsstring * value)) (r : value)
    (rs : list value) : thrown + jsstring :=
  if ToBoolean (lookup (lit "returnAll") args) then
    and_then (Array_map format_record (firstn 5 (r :: rs))) (fun parts =>
    inr (string_or (join (lit "; ") parts) (lit "No memories found")))
  else
    and_then
      (ToString (nullish_or (optional_get r (lit "memory")) (VStr [])))
      (fun text =>
    inr (string_or (normalizeOneLine text) (lit "No relevant memory found"))).

(** Does building the text of a search-memories call throw? *)
Definition formatting_throws (config : Config) (memoryClient : MemoryClient)
    (request : CallToolRequest) : bool :=
  match arguments request with
  | Some args =>
      str_eqb (name request) (lit "search-memories") &&
      match search_outcome config memoryClient args with
      | inr (VArr (r :: rs)) =>
          match search_text args r rs with
          | inl _ => true
          | inr _ => false
          end
      | _ => false
      end
  | None => false
  end.

(** [{"toString": 1}]: a value of JSON that has no string. *)
Definition no_string : value := VObj [(lit "toString", VNum (of_Z 1))].

(** [[{memory: {"toString": 1}, score: 0.5}]] and
    [[{memory: "Owns a dog", score: {"toString": 1}}]]. *)
Definition no_memory_string : value :=
  VArr [ VObj [ (lit "memory", no_string); (lit "score", VNum score_0_5) ] ].

Definition no_score_string : value :=
  VArr [ VObj [ (lit "memory", VStr (lit "Owns a dog"));
                (lit "score", no_string) ] ].

(** A memory store that is down like [failing_client], except for calls
    without a user id, which the handler never makes. *)
Definition picky_client : MemoryClient :=
  {| add := fun _ o =>
       if ToBoolean (user_id o) then inl (ErrorObject (lit "fetch failed"))
       else inr VNull;
     search := fun _ o =>
       if ToBoolean (user_id o) then inl (ErrorObject (lit "fetch failed"))
       else inr sample_records |}.

(** * Properties *)

(** ** The runtime model on known values *)

Example normalize_example :
  normalizeOneLine (lit "Loves" ++ [10; 10]%N ++ lit "hiking")
  = lit "Loves hiking".
Proof. reflexivity. Qed.

(** TAB, CR LF, NO-BREAK SPACE and U+3000 are white space too. *)
Example normalize_white_space :
  normalizeOneLine
    ([9; 32]%N ++ lit "a" ++ [13; 10; 160; 12288]%N ++ lit "b  c" ++ [32; 9]%N)
  = lit "a b c".
Proof. reflexivity. Qed.

(** [Number("0.5")], [Number(" 12 ")], [Number("")], [Number("12px")],
    [Number("0x1F")], [Number("1e999")]. *)
Example StringToNumber_known :
  StringToNumber (lit "0.5") = score_0_5 /\
  StringToNumber (lit " 12 ") = of_Z 12 /\
  StringToNumber [] = pos_zero /\
  StringToNumber (lit "12px") = NaN /\
  StringToNumber (lit "0x1F") = of_Z 31 /\
  StringToNumber (lit "1e999") = S754_infinity false.
Proof. repeat split; vm_compute; reflexivity. Qed.

(** [String(0.1)], [String(1e21)], [String(1e-7)], [String(5e-324)],
    [String(123456789012345680000)], [String(-0)]. *)
Example Number_toString_known :
  Number_toString (StringToNumber (lit "0.1")) = lit "0.1" /\
  Number_toString (StringToNumber (lit "1e21")) = lit "1e+21" /\
  Number_toString (StringToNumber (lit "0.0000001")) = lit "1e-7" /\
  Number_toString (StringToNumber (lit "5e-324")) = lit "5e-324" /\
  Number_toString (StringToNumber (lit "123456789012345678901"))
    = lit "123456789012345680000" /\
  Number_toString (S754_zero true) = lit "0".
Proof.
  split; [| split; [| split; [| split; [| split]]]]; vm_compute; reflexivity.
Qed.

(** [(1.005).toFixed(2)], [(8.345).toFixed(2)], [(2.5).toFixed(0)],
    [(-1e-10).toFixed(2)], [(1e21).toFixed(3)], [(0.0005).toFixed(3)]. *)
Example Number_toFixed_known :
  Number_toFixed (StringToNumber (lit "1.005")) 2 = lit "1.00" /\
  Number_toFixed (StringToNumber (lit "8.345")) 2 = lit "8.35" /\
  Number_toFixed (StringToNumber (lit "2.5")) 0 = lit "3" /\
  Number_toFixed (StringToNumber (lit "-1e-10")) 2 = lit "-0.00" /\
  Number_toFixed (StringToNumber (lit "1e21")) 3 = lit "1e+21" /\
  Number_toFixed (StringToNumber (lit "0.0005")) 3 = lit "0.001".
Proof.
  split; [| split; [| split; [| split; [| split]]]]; vm_compute; reflexivity.
Qed.

(** [String([1, null, [2, "a"]])], [String({})], [Number([])],
    [Number([5])], [Number(true)]; [String({"toString": 1})],
    [String([1, {"toString": 1}])] and [Number({"toString": 1})]
    throw. *)
Example conversions_known :
  ToString (VArr [VNum (of_Z 1); VNull; VArr [VNum (of_Z 2); VStr (lit "a")]])
    = inr (lit "1,,2,a") /\
  ToString (VObj []) = inr (lit "[object Object]") /\
  ToNumber (VArr []) = inr pos_zero /\
  ToNumber (VArr [VNum (of_Z 5)]) = inr (of_Z 5) /\
  ToNumber (VBool true) = inr (of_Z 1) /\
  ToString no_string = inl TypeError /\
  ToString (VArr [VNum (of_Z 1); no_string]) = inl TypeError /\
  ToNumber no_string = inl TypeError /\
  ToString (VObj [(lit "valueOf", VNum (of_Z 1))])
    = inr (lit "[object Object]").
Proof.
  split; [| split; [| split; [| split; [| split; [| split; [| split;
    [| split]]]]]]]; vm_compute; reflexivity.
Qed.

(** ** The one-line normalizer *)

Lemma crlftab_is_space c : is_crlftab c = true -> is_space c = true.
Proof.
  unfold is_crlftab, is_space; intros H.
  apply orb_true_iff in H as [H | H];
    [apply orb_true_iff in H as [H | H] |];
    apply N.eqb_eq in H; subst c; reflexivity.
Qed.

Lemma trimStart_app l m :
  trimStart (l ++ m) =
  match trimStart l with
  | [] => trimStart m
  | t => t ++ m
  end.
Proof.
  induction l as [| c l IH]; simpl.
  - reflexivity.
  - destruct (is_space c); [exact IH | reflexivity].
Qed.

Lemma trimEnd_strip_end s : trimEnd s = strip_end s.
Proof.
  unfold trimEnd; induction s as [| c s IH]; simpl.
  - reflexivity.
  - rewrite trimStart_app, <- IH.
    destruct (trimStart (rev s)) as [| d t] eqn:E; simpl.
    + destruct (is_space c); reflexivity.
    + rewrite rev_app_distr; simpl.
      destruct (rev t ++ [d]) eqn:E'; [| reflexivity].
      now destruct (rev t).
Qed.

Lemma spaced_replace_runs b s : spaced b (replace_runs is_space b s) = true.
Proof.
  revert b; induction s as [| c s IH]; intros b; simpl.
  - reflexivity.
  - destruct (is_space c) eqn:Ec.
    + destruct b; simpl; [apply IH | now rewrite IH].
    + simpl; rewrite Ec; apply IH.
Qed.

Lemma spaced_weaken a s : spaced true s = true -> spaced a s = true.
Proof.
  destruct s as [| c s]; simpl; [reflexivity |].
  destruct (is_space c); [| tauto].
  rewrite andb_false_r; discriminate.
Qed.

Lemma spaced_trimStart a s :
  spaced a s = true -> spaced true (trimStart s) = true.
Proof.
  revert a; induction s as [| c s IH]; intros a; simpl.
  - reflexivity.
  - destruct (is_space c) eqn:Ec.
    + intros H; apply andb_true_iff in H as [_ H]; eauto.
    + simpl; now rewrite Ec.
Qed.

Lemma tight_strip_end a s :
  spaced a s = true -> strip_end s = [] \/ tight a (strip_end s) = true.
Proof.
  revert a; induction s as [| c s IH]; intros a; simpl.
  - now left.
  - destruct (is_space c) eqn:Ec; intros H.
    + apply andb_true_iff in H as [H1 H2].
      destruct (IH _ H2) as [E | T].
      * rewrite E; now left.
      * right. destruct (strip_end s) as [| d t]; [discriminate |].
        change (tight a (c :: d :: t)) with
          (if is_space c then N.eqb c SPACE && negb a && tight true (d :: t)
           else tight false (d :: t)).
        now rewrite Ec, H1, T.
    + right. destruct (IH _ H) as [E | T].
      * rewrite E; simpl; now rewrite Ec.
      * destruct (strip_end s) as [| d t]; [simpl; now rewrite Ec |].
        change (tight a (c :: d :: t)) with
          (if is_space c then N.eqb c SPACE && negb a && tight true (d :: t)
           else tight false (d :: t)).
        now rewrite Ec.
Qed.

(** The normalizer always returns a single-line, trimmed string. *)
Lemma normalizeOneLine_one_line s : one_line (normalizeOneLine s) = true.
Proof.
  unfold normalizeOneLine, trim, replace_all_runs.
  rewrite trimEnd_strip_end.
  pose proof (spaced_replace_runs false (replace_runs is_crlftab false s)) as H.
  apply spaced_trimStart in H.
  destruct (tight_strip_end _ _ H) as [E | T].
  - now rewrite E.
  - unfold one_line; now destruct (strip_end _).
Qed.

Lemma tight_spaced a s : tight a s = true -> spaced a s = true.
Proof.
  revert a; induction s as [| c s IH]; intros a; simpl.
  - reflexivity.
  - destruct (is_space c); [| apply IH].
    intros H; apply andb_true_iff in H as [H1 H2].
    now rewrite H1, (IH _ H2).
Qed.

Lemma replace_crlftab_spaced a b s :
  spaced a s = true -> replace_runs is_crlftab b s = s.
Proof.
  revert a b; induction s as [| c s IH]; intros a b; simpl.
  - reflexivity.
  - destruct (is_space c) eqn:Ec; intros H.
    + apply andb_true_iff in H as [H1 H2].
      apply andb_true_iff in H1 as [H1 _].
      apply N.eqb_eq in H1; subst c; simpl.
      now rewrite (IH _ _ H2).
    + destruct (is_crlftab c) eqn:Ec'.
      * apply crlftab_is_space in Ec'; congruence.
      * now rewrite (IH _ _ H).
Qed.

Lemma replace_space_spaced a s :
  spaced a s = true -> replace_runs is_space a s = s.
Proof.
  revert a; induction s as [| c s IH]; intros a; simpl.
  - reflexivity.
  - destruct (is_space c) eqn:Ec; intros H.
    + apply andb_true_iff in H as [H1 H2].
      apply andb_true_iff in H1 as [H1 Ha].
      apply N.eqb_eq in H1; subst c.
      destruct a; [discriminate |].
      now rewrite (IH _ H2).
    + now rewrite (IH _ H).
Qed.

Lemma strip_end_tight a s : tight a s = true -> strip_end s = s.
Proof.
  revert a; induction s as [| c s IH]; intros a; simpl.
  - reflexivity.
  - destruct (is_space c) eqn:Ec; intros H.
    + apply andb_true_iff in H as [_ H].
      rewrite (IH _ H). destruct s; [discriminate | reflexivity].
    + rewrite (IH _ H). now destruct s.
Qed.

Lemma trimStart_tight s : tight true s = true -> trimStart s = s.
Proof.
  destruct s as [| c s]; simpl; [reflexivity |].
  destruct (is_space c); [| reflexivity].
  rewrite andb_false_r; discriminate.
Qed.

(** A single-line, trimmed string is a fixed point of the normalizer. *)
Lemma normalizeOneLine_fixed s :
  one_line s = true -> normalizeOneLine s = s.
Proof.
  intros H. destruct s as [| c s]; [reflexivity |].
  unfold one_line in H.
  unfold normalizeOneLine, trim, replace_all_runs.
  pose proof (tight_spaced _ _ H) as Hs.
  rewrite (replace_crlftab_spaced true false _ Hs).
  rewrite (replace_space_spaced _ _ (spaced_weaken false _ Hs)).
  rewrite (trimStart_tight _ H), trimEnd_strip_end.
  exact (strip_end_tight _ _ H).
Qed.

(** C9: the one-line normalizer is idempotent, and it returns a string
    that is already single-line and trimmed unchanged. *)
Theorem normalizeOneLine_idempotent :
  (forall s : jsstring,
      normalizeOneLine (normalizeOneLine s) = normalizeOneLine s) /\
  (forall s : jsstring, one_line s = true -> normalizeOneLine s = s).
Proof.
  split.
  - intros s. apply normalizeOneLine_fixed, normalizeOneLine_one_line.
  - exact normalizeOneLine_fixed.
Qed.

(** ** The call-tool handler, branch by branch *)

Lemma str_eqb_refl s : str_eqb s s = true.
Proof.
  induction s as [| c s IH]; simpl; [reflexivity |].
  unfold code_eqb; now rewrite N.eqb_refl.
Qed.

Lemma str_eqb_eq s t : str_eqb s t = true -> s = t.
Proof.
  revert t; induction s as [| c s IH]; intros [| d t]; simpl;
    try discriminate; [reflexivity |].
  intros H; apply andb_true_iff in H as [H1 H2].
  apply N.eqb_eq in H1; subst d. now rewrite (IH _ H2).
Qed.

Lemma str_eqb_neq s t : s <> t -> str_eqb s t = false.
Proof.
  intros H; destruct (str_eqb s t) eqn:E; [| reflexivity].
  now apply str_eqb_eq in E.
Qed.

(** Absent arguments: the [throw] reaches the catch-all. *)
Lemma handler_no_arguments config client n :
  handler config client {| name := n; arguments := None |} =
  ([], inr (text_result (lit "Error: No arguments provided") true)).
Proof. reflexivity. Qed.

(** The [default] case of the [switch]. *)
Lemma handler_unknown_tool config client n args :
  str_eqb n (lit "add-memory") = false ->
  str_eqb n (lit "search-memories") = false ->
  handler config client {| name := n; arguments := Some args |} =
  ([], inr (text_result (lit "Unknown tool: " ++ n) true)).
Proof.
  intros H1 H2. unfold handler, handler_body; cbn [name arguments].
  now rewrite H1, H2.
Qed.

(** The [add-memory] case: the outcome of the adapter only shows in the
    console. *)
Lemma handler_add_memory config client args :
  handler config client (add_request args) =
  (match add_outcome config client args with
   | inl error => [(lit "Error adding memory:", error)]
   | inr _ => []
   end,
   inr (text_result (lit "Memory added successfully") false)).
Proof.
  unfold handler, handler_body, add_request; cbn [name arguments].
  rewrite str_eqb_refl.
  unfold addMemory, add_outcome.
  now destruct (add client _ _).
Qed.

(** The [search-memories] case, by the outcome of the adapter. *)
Lemma handler_search_failed config client args error :
  search_outcome config client args = inl error ->
  handler config client (search_request args) =
  ([(lit "Error searching memories:", error)],
   inr (text_result (lit "No memories found") false)).
Proof.
  unfold search_outcome; intros H.
  unfold handler, handler_body, search_request; cbn [name arguments].
  change (str_eqb (lit "search-memories") (lit "add-memory")) with false.
  rewrite str_eqb_refl; cbv iota.
  unfold searchMemories. now rewrite H.
Qed.

(** *** What the conversions throw *)

Lemma Array_map_throws {A B : Type} (f : A -> thrown + B) l error :
  Array_map f l = inl error -> exists x, In x l /\ f x = inl error.
Proof.
  induction l as [| x l IH]; cbn [Array_map]; [discriminate |].
  unfold and_then at 1. destruct (f x) as [e | y] eqn:E.
  - intros [= <-]. exists x. split; [now left | exact E].
  - unfold and_then. destruct (Array_map f l) as [e | ys]; [| discriminate].
    intros [= <-]. destruct (IH eq_refl) as (x' & Hin & Hx').
    exists x'. split; [now right | exact Hx'].
Qed.

Lemma Array_map_returns {A B : Type} (f : A -> thrown + B) l ys :
  Array_map f l = inr ys -> Forall2 (fun x y => f x = inr y) l ys.
Proof.
  revert ys; induction l as [| x l IH]; intros ys; cbn [Array_map].
  - intros [= <-]. constructor.
  - unfold and_then at 1. destruct (f x) as [e | y] eqn:E; [discriminate |].
    unfold and_then. destruct (Array_map f l) as [e | ys']; [discriminate |].
    intros [= <-]. constructor; [exact E | now apply IH].
Qed.

(** One element that throws makes the whole [map] throw; when every
    throw is the same error, that error. *)
Lemma Array_map_one_throws {A B : Type} (f : A -> thrown + B) l x error :
  (forall y e, f y = inl e -> e = error) ->
  In x l -> f x = inl error -> Array_map f l = inl error.
Proof.
  intros Hsame. induction l as [| a l IH]; intros Hin Hx; [destruct Hin |].
  cbn [Array_map]. unfold and_then at 1.
  destruct (f a) as [e | y] eqn:E; [now rewrite (Hsame _ _ E) |].
  destruct Hin as [-> | Hin]; [congruence |].
  now rewrite (IH Hin Hx).
Qed.

(** The only error of [ToString] is the [TypeError]. *)
Lemma ToString_throws : forall v error,
  ToString v = inl error -> error = TypeError.
Proof.
  fix IH 1. intros v error.
  destruct v as [| | [|] | x | s | elems | props]; cbn [ToString];
    try discriminate.
  - assert (Hall : forall e,
              Array_map (fun e => match e with
                                  | VUndefined | VNull => inr []
                                  | _ => ToString e
                                  end) elems = inl e -> e = TypeError).
    { revert elems. fix IHl 1. intros [| a l] e; cbn [Array_map];
        [discriminate |].
      pose proof (IH a) as IHa.
      unfold and_then at 1.
      destruct (match a with
                | VUndefined | VNull => inr []
                | _ => ToString a
                end) as [e' | y] eqn:Ea.
      - intros [= <-]. apply IHa. destruct a; try discriminate Ea; exact Ea.
      - unfold and_then.
        destruct (Array_map _ l) as [e' | ys] eqn:El; [| discriminate].
        intros [= <-]. exact (IHl l _ El). }
    unfold and_then.
    destruct (Array_map _ elems) as [e | parts]; [| discriminate].
    intros [= <-]. now apply Hall.
  - destruct (has_own _ props); [| discriminate]. now intros [= <-].
Qed.

Lemma ToNumber_throws v error : ToNumber v = inl error -> error = TypeError.
Proof.
  destruct v as [| | [|] | x | s | elems | props]; cbn [ToNumber];
    try discriminate; unfold and_then;
    match goal with |- context [ToString ?v] =>
      destruct (ToString v) as [e | t] eqn:E end;
    try discriminate; intros [= <-]; exact (ToString_throws _ _ E).
Qed.

Lemma round_throws n error : round n 3 = inl error -> error = TypeError.
Proof.
  unfold round, and_then.
  destruct (ToNumber n) as [e | num] eqn:E.
  - intros [= <-]. exact (ToNumber_throws _ _ E).
  - destruct (Number_isFinite num); discriminate.
Qed.

Lemma format_record_throws r error :
  format_record r = inl error -> error = TypeError.
Proof.
  unfold format_record, and_then.
  destruct (ToString (nullish_or (optional_get r (lit "memory")) (VStr [])))
    as [e | text] eqn:Em.
  - intros [= <-]. exact (ToString_throws _ _ Em).
  - destruct (round _ 3) as [e | score] eqn:Es.
    + intros [= <-]. exact (round_throws _ _ Es).
    + destruct (ToString score) as [e | shown] eqn:Et; [| discriminate].
      intros [= <-]. exact (ToString_throws _ _ Et).
Qed.

Lemma search_text_throws args r rs error :
  search_text args r rs = inl error -> error = TypeError.
Proof.
  unfold search_text, and_then.
  destruct (ToBoolean _).
  - destruct (Array_map format_record _) as [e | parts] eqn:E;
      [| discriminate].
    intros [= <-]. destruct (Array_map_throws _ _ _ E) as (x & _ & Hx).
    exact (format_record_throws _ _ Hx).
  - destruct (ToString _) as [e | text] eqn:E; [| discriminate].
    intros [= <-]. exact (ToString_throws _ _ E).
Qed.

(** The [try] block on a resolved search: it returns the text of the
    records, or throws what building the text throws. *)
Lemma handler_body_search_resolved config client args results :
  search_outcome config client args = inr results ->
  handler_body config client (search_request args) =
  match results with
  | VArr (r :: rs) =>
      match search_text args r rs with
      | inr t => ret (text_result t false)
      | inl error => throw error
      end
  | _ => ret (text_result (lit "No memories found") false)
  end.
Proof.
  unfold search_outcome; intros H.
  unfold handler_body, search_request; cbn [name arguments].
  change (str_eqb (lit "search-memories") (lit "add-memory")) with false.
  rewrite str_eqb_refl; cbv iota.
  unfold searchMemories. rewrite H.
  destruct results as [| | b | x | s | [| r rs] | props]; try reflexivity.
  cbn [try_catch bind await ret app fst snd Array_isArray elements negb orb
       List.length Nat.eqb slice0 index0 nth].
  unfold search_text, slice0.
  destruct (ToBoolean (lookup (lit "returnAll") args)).
  - destruct (Array_map format_record (firstn 5 (r :: rs))); reflexivity.
  - destruct (ToString _); reflexivity.
Qed.

Lemma handler_search_resolved config client args results :
  search_outcome config client args = inr results ->
  handler config client (search_request args) =
  ([],
   inr
     (match results with
      | VArr (r :: rs) =>
          match search_text args r rs with
          | inr t => text_result t false
          | inl _ => text_result (lit "Error: " ++ TypeError_message) true
          end
      | _ => text_result (lit "No memories found") false
      end)).
Proof.
  intros H. unfold handler.
  rewrite (handler_body_search_resolved _ _ _ _ H).
  destruct results as [| | b | x | s | [| r rs] | props]; try reflexivity.
  destruct (search_text args r rs) as [error | t] eqn:E; [| reflexivity].
  now rewrite (search_text_throws _ _ _ _ E).
Qed.

(** ** The claims about dispatch *)

(** C5 as the specification words it does not hold: the message the
    source throws is capitalised, so the text of the result is not
    ["Error: no arguments provided"]. *)
Lemma no_arguments_text_differs :
  snd (handler sample_config failing_client
         {| name := lit "add-memory"; arguments := None |}) <>
  inr (text_result (lit "Error: no arguments provided") true).
Proof. vm_compute; discriminate. Qed.

(** C5, amended: a call whose [arguments] field is absent returns
    [isError: true] with the single text block
    ["Error: No arguments provided"], whatever the tool name, the
    configuration and the memory store. *)
Theorem no_arguments_error (config : Config) (client : MemoryClient)
    (toolName : jsstring) :
  snd (handler config client {| name := toolName; arguments := None |}) =
  inr {| content :=
           [ {| type := lit "text";
                text := lit "Error: No arguments provided" |} ];
         isError := true |}.
Proof. now rewrite handler_no_arguments. Qed.

(** C8: with arguments present, a tool name that is neither
    ["add-memory"] nor ["search-memories"] gives the result
    [{isError: true, text: "Unknown tool: <name>"}], returned and not
    thrown; ["delete-memory"] gives ["Unknown tool: delete-memory"]. *)
Theorem unknown_tool_error (config : Config) (client : MemoryClient)
    (toolName : jsstring) (args : list (jsstring * value)) :
  toolName <> lit "add-memory" ->
  toolName <> lit "search-memories" ->
  handler_body config client {| name := toolName; arguments := Some args |} =
    ret (text_result (lit "Unknown tool: " ++ toolName) true) /\
  snd (handler config client {| name := toolName; arguments := Some args |}) =
    inr {| content :=
             [ {| type := lit "text";
                  text := lit "Unknown tool: " ++ toolName |} ];
           isError := true |} /\
  snd (handler config client
         {| name := lit "delete-memory"; arguments := Some args |}) =
    inr (text_result (lit "Unknown tool: delete-memory") true).
Proof.
  intros H1 H2. apply str_eqb_neq in H1, H2.
  rewrite handler_unknown_tool by assumption.
  rewrite handler_unknown_tool by reflexivity.
  repeat split.
  unfold handler_body; cbn [name arguments]. now rewrite H1, H2.
Qed.

Lemma unknown_tool_error_witness :
  snd (handler sample_config failing_client
         {| name := lit "list-memories"; arguments := Some sample_args |}) =
  inr (text_result (lit "Unknown tool: list-memories") true).
Proof.
  refine (proj1 (proj2
    (unknown_tool_error sample_config failing_client (lit "list-memories")
       sample_args _ _))); vm_compute; discriminate.
Defined.

(** C2: an add-memory call with non-empty string [content] and [userId]
    returns [{isError: false, text: "Memory added successfully"}] for
    every memory store, whether its add operation resolves or rejects. *)
Theorem add_memory_confirms (config : Config) (client : MemoryClient)
    (args : list (jsstring * value)) (content userId : jsstring) :
  lookup (lit "content") args = VStr content -> content <> [] ->
  lookup (lit "userId") args = VStr userId -> userId <> [] ->
  snd (handler config client (add_request args)) =
  inr {| content :=
           [ {| type := lit "text";
                text := lit "Memory added successfully" |} ];
         isError := false |}.
Proof. intros _ _ _ _. now rewrite handler_add_memory. Qed.

Lemma add_memory_confirms_witness :
  add_outcome sample_config failing_client sample_args =
    inl (ErrorObject (lit "fetch failed")) /\
  snd (handler sample_config failing_client (add_request sample_args)) =
    inr (text_result (lit "Memory added successfully") false) /\
  snd (handler sample_config (client_returning VNull)
         (add_request sample_args)) =
    inr (text_result (lit "Memory added successfully") false).
Proof.
  split; [reflexivity |].
  split;
    apply (add_memory_confirms _ _ sample_args (lit "Loves hiking")
             (lit "alice"));
    solve [reflexivity | vm_compute; discriminate].
Defined.

(** C7: when the search operation of the memory store rejects, or resolves
    with an empty array, a search-memories call returns
    [{isError: false, text: "No memories found"}]: the caller cannot tell
    the two apart. *)
Theorem search_failure_or_empty (config : Config) (client : MemoryClient)
    (args : list (jsstring * value)) :
  (exists error, search_outcome config client args = inl error) \/
  search_outcome config client args = inr (VArr []) ->
  snd (handler config client (search_request args)) =
  inr {| content :=
           [ {| type := lit "text"; text := lit "No memories found" |} ];
         isError := false |}.
Proof.
  intros [[error H] | H].
  - now rewrite (handler_search_failed _ _ _ _ H).
  - now rewrite (handler_search_resolved _ _ _ _ H).
Qed.

Lemma search_failure_or_empty_witness :
  snd (handler sample_config failing_client (search_request sample_args)) =
    inr (text_result (lit "No memories found") false) /\
  snd (handler sample_config (client_returning (VArr []))
         (search_request sample_args)) =
    inr (text_result (lit "No memories found") false).
Proof.
  split; apply search_failure_or_empty.
  - left; eexists; reflexivity.
  - right; reflexivity.
Defined.

(** The shape of every result: a single block of type ["text"]. *)
Lemma handler_single_text_block config client request :
  exists t err log,
    handler config client request = (log, inr (text_result t err)).
Proof.
  destruct request as [n [args |]].
  - destruct (str_eqb n (lit "add-memory")) eqn:Ea.
    + apply str_eqb_eq in Ea; subst n.
      change {| name := lit "add-memory"; arguments := Some args |}
        with (add_request args).
      rewrite handler_add_memory; eauto.
    + destruct (str_eqb n (lit "search-memories")) eqn:Es.
      * apply str_eqb_eq in Es; subst n.
        change {| name := lit "search-memories"; arguments := Some args |}
          with (search_request args).
        destruct (search_outcome config client args) as [error | results]
          eqn:E.
        -- rewrite (handler_search_failed _ _ _ _ E); eauto.
        -- rewrite (handler_search_resolved _ _ _ _ E).
           destruct results as [| | b | x | s | [| r rs] | props]; eauto.
           destruct (search_text args r rs); eauto.
      * rewrite handler_unknown_tool by assumption; eauto.
  - rewrite handler_no_arguments; eauto.
Qed.

(** C10: every result of the call-tool handler, on every branch, carries
    exactly one content block, and that block has type ["text"]. *)
Theorem one_text_block (config : Config) (client : MemoryClient)
    (request : CallToolRequest) :
  exists (t : jsstring) (err : bool),
    snd (handler config client request) =
    inr {| content := [ {| type := lit "text"; text := t |} ];
           isError := err |}.
Proof.
  destruct (handler_single_text_block config client request)
    as (t & err & log & H).
  exists t, err. now rewrite H.
Qed.

(** C1 as the specification words it does not hold: when the memory store
    rejects the add operation, the result of an add-memory call does not
    have [isError: true]. *)
Lemma adapter_failure_is_not_reported :
  add_outcome sample_config failing_client sample_args =
    inl (ErrorObject (lit "fetch failed")) /\
  snd (handler sample_config failing_client (add_request sample_args)) =
    inr (text_result (lit "Memory added successfully") false).
Proof. split; reflexivity. Qed.

(** The [try] block throws nothing but [Error] instances: the one for the
    missing arguments, or the [TypeError] of a conversion. *)
Lemma handler_body_throws config client request log error :
  handler_body config client request = (log, inl error) ->
  log = [] /\
  (error = ErrorObject (lit "No arguments provided") \/ error = TypeError).
Proof.
  destruct request as [n [args |]].
  - destruct (str_eqb n (lit "add-memory")) eqn:Ea.
    + apply str_eqb_eq in Ea; subst n.
      unfold handler_body, addMemory; cbn [name arguments].
      rewrite str_eqb_refl.
      destruct (add client _ _); discriminate.
    + destruct (str_eqb n (lit "search-memories")) eqn:Es.
      * apply str_eqb_eq in Es; subst n.
        change {| name := lit "search-memories"; arguments := Some args |}
          with (search_request args).
        destruct (search_outcome config client args) as [e | results] eqn:E.
        -- unfold search_outcome in E.
           unfold handler_body, searchMemories, search_request;
             cbn [name arguments].
           change (str_eqb (lit "search-memories") (lit "add-memory"))
             with false.
           rewrite str_eqb_refl; cbv iota. rewrite E. discriminate.
        -- rewrite (handler_body_search_resolved _ _ _ _ E).
           destruct results as [| | b | x | s | [| r rs] | props];
             try discriminate.
           destruct (search_text args r rs) as [e | t] eqn:Et;
             [| discriminate].
           intros [= <- <-]. split; [reflexivity | right].
           exact (search_text_throws _ _ _ _ Et).
      * unfold handler_body; cbn [name arguments]. rewrite Ea, Es.
        discriminate.
  - intros [= <- <-]. split; [reflexivity | now left].
Qed.

(** C1, amended: the call-tool handler returns a result for every request
    and never throws.  Whatever its [try] block throws is an [Error]
    instance, and the catch-all turns it into a result with
    [isError: true] and the single text block ["Error: <message>"]: so
    for absent arguments, and so for the [TypeError] that building the
    text of a search throws (a record whose memory or score has no
    string).  An unknown tool name gives a result with [isError: true].
    A failure of the memory store is not among them: it is caught in
    [addMemory] and [searchMemories], written to the console, and the
    result has [isError: false]. *)
Theorem handler_never_throws (config : Config) (client : MemoryClient)
    (request : CallToolRequest) :
  (exists result, snd (handler config client request) = inr result) /\
  (forall log error,
      handler_body config client request = (log, inl error) ->
      exists message,
        error = ErrorObject message /\
        handler config client request =
        (log, inr (text_result (lit "Error: " ++ message) true))) /\
  (arguments request = None ->
   handler_body config client request =
     throw (ErrorObject (lit "No arguments provided")) /\
   exists t, snd (handler config client request) = inr (text_result t true)) /\
  (arguments request <> None ->
   name request <> lit "add-memory" ->
   name request <> lit "search-memories" ->
   exists t, snd (handler config client request) = inr (text_result t true)) /\
  (forall args r rs error,
      search_outcome config client args = inr (VArr (r :: rs)) ->
      search_text args r rs = inl error ->
      handler_body config client (search_request args) = throw TypeError /\
      handler config client (search_request args) =
      ([], inr (text_result (lit "Error: " ++ TypeError_message) true))) /\
  (forall args error,
      add_outcome config client args = inl error ->
      handler config client (add_request args) =
      ([(lit "Error adding memory:", error)],
       inr (text_result (lit "Memory added successfully") false))) /\
  (forall args error,
      search_outcome config client args = inl error ->
      handler config client (search_request args) =
      ([(lit "Error searching memories:", error)],
       inr (text_result (lit "No memories found") false))).
Proof.
  split; [| split; [| split; [| split; [| split; [| split]]]]].
  - destruct (handler_single_text_block config client request)
      as (t & err & log & H).
    rewrite H; eexists; reflexivity.
  - intros log error H. unfold handler. rewrite H.
    destruct (handler_body_throws _ _ _ _ _ H) as [-> [-> | ->]];
      eexists; split; reflexivity.
  - destruct request as [n [args |]]; cbn [arguments]; intros H;
      [discriminate H |].
    split; [reflexivity |].
    rewrite handler_no_arguments; eexists; reflexivity.
  - destruct request as [n [args |]]; cbn [name arguments];
      [| congruence].
    intros _ H1 H2. apply str_eqb_neq in H1, H2.
    rewrite handler_unknown_tool by assumption; eexists; reflexivity.
  - intros args r rs error Hres Htext.
    rewrite (handler_search_resolved _ _ _ _ Hres),
            (handler_body_search_resolved _ _ _ _ Hres), Htext.
    now rewrite (search_text_throws _ _ _ _ Htext).
  - intros args error H. rewrite handler_add_memory. now rewrite H.
  - intros args error. apply handler_search_failed.
Qed.

Lemma handler_never_throws_witness :
  handler sample_config failing_client (search_request sample_args) =
    ([(lit "Error searching memories:", ErrorObject (lit "fetch failed"))],
     inr (text_result (lit "No memories found") false)) /\
  (handler_body sample_config (client_returning no_memory_string)
     (search_request sample_args) = throw TypeError /\
   handler sample_config (client_returning no_memory_string)
     (search_request sample_args) =
   ([], inr (text_result (lit "Error: " ++ TypeError_message) true))).
Proof.
  split.
  - refine (proj2 (proj2 (proj2 (proj2 (proj2 (proj2
      (handler_never_throws sample_config failing_client
         (search_request sample_args)))))))
      sample_args (ErrorObject (lit "fetch failed")) _).
    reflexivity.
  - refine (proj1 (proj2 (proj2 (proj2 (proj2
      (handler_never_throws sample_config (client_returning no_memory_string)
         (search_request sample_args))))))
      sample_args _ _ TypeError _ _); reflexivity.
Defined.

(** ** The claims about search formatting *)

Lemma join_nonempty sep x l : x <> [] -> join sep (x :: l) <> [].
Proof.
  intros Hx; simpl. destruct l; [exact Hx |].
  intros H; apply app_eq_nil in H as [H _]; contradiction.
Qed.

Lemma format_record_nonempty r part : format_record r = inr part -> part <> [].
Proof.
  unfold format_record, and_then.
  destruct (ToString _) as [e | text]; [discriminate |].
  destruct (round _ 3) as [e | score]; [discriminate |].
  destruct (ToString score) as [e | shown]; [discriminate |].
  intros [= <-] H.
  apply app_eq_nil in H as [_ H]. discriminate H.
Qed.

(** A record as the memory store documents it: a string and a finite
    Number. *)
Lemma format_record_typed r m x :
  optional_get r (lit "memory") = VStr m ->
  optional_get r (lit "score") = VNum x ->
  Number_isFinite x = true ->
  format_record r =
  inr (normalizeOneLine m ++ lit " (relevance: "
         ++ Number_toString (StringToNumber (Number_toFixed x 3)) ++ lit ")").
Proof.
  intros Hm Hs Hx. unfold format_record, round.
  rewrite Hm, Hs; cbn [nullish_or ToNumber ToString and_then].
  rewrite Hx. reflexivity.
Qed.

Lemma Array_map_total {A B : Type} (f : A -> thrown + B) l :
  (forall x, In x l -> exists y, f x = inr y) ->
  exists ys, Array_map f l = inr ys.
Proof.
  induction l as [| x l IH]; intros H; cbn [Array_map]; [now exists [] |].
  destruct (H x (or_introl eq_refl)) as [y Hy].
  destruct IH as [ys Hys]; [intros x' Hin; apply H; now right |].
  exists (y :: ys). now rewrite Hy, Hys.
Qed.

(** The literal [0.8765] is not a binary64 value: the Number it denotes is
    a little smaller, so that [toFixed(3)] rounds it down. *)
Example score_0_8765_rounds_down :
  StringToNumber (lit "0.8765") = score_0_8765 /\
  valid_binary prec emax score_0_8765 = true /\
  (7894810146780479 * 10000 < 8765 * 2 ^ 53)%Z /\
  Number_toFixed score_0_8765 3 = lit "0.876" /\
  round (VNum score_0_8765) 3 = inr (VNum (StringToNumber (lit "0.876"))).
Proof.
  split; [| split; [| split; [| split]]]; vm_compute; reflexivity.
Qed.

(** C3 as the specification words it does not hold: on the records of its
    example the listing is not the text it gives, the first score is
    rendered [0.876]. *)
Lemma returnAll_example_differs :
  search_outcome sample_config (client_returning sample_records)
    ((lit "returnAll", VBool true) :: sample_args) = inr sample_records /\
  snd (handler sample_config (client_returning sample_records)
         (search_request ((lit "returnAll", VBool true) :: sample_args))) <>
  inr (text_result
         (lit "Loves hiking (relevance: 0.877); Owns a dog (relevance: 0.5)")
         false).
Proof. split; [reflexivity | vm_compute; discriminate]. Qed.

(** C3, amended: with a truthy [returnAll] and a non-empty array of
    records, the text is the listing of at most the first 5 records in
    their order, joined with ["; "], each record rendered as
    ["<normalized memory text> (relevance: <score>)"] where a finite
    Number score [x] is [Number(x.toFixed(3))]; the listing is never empty,
    so the fall-back ["No memories found"] is not taken.  That is so when
    every one of those records can be rendered, as records with a string
    and a finite Number can; when rendering one of them throws (a memory
    or score without a string), the result is the error of the catch-all
    instead.  On the records of the example the text is
    ["Loves hiking (relevance: 0.876); Owns a dog (relevance: 0.5)"]. *)
Theorem search_returnAll_listing :
  (forall (config : Config) (client : MemoryClient)
          (args : list (jsstring * value)) (r : value) (rs : list value),
      ToBoolean (lookup (lit "returnAll") args) = true ->
      search_outcome config client args = inr (VArr (r :: rs)) ->
      match Array_map format_record (firstn 5 (r :: rs)) with
      | inr parts =>
          let formatted := join (lit "; ") parts in
          Forall2 (fun record part => format_record record = inr part)
            (firstn 5 (r :: rs)) parts /\
          snd (handler config client (search_request args)) =
            inr {| content :=
                     [ {| type := lit "text";
                          text :=
                            string_or formatted (lit "No memories found") |} ];
                   isError := false |} /\
          formatted <> [] /\
          string_or formatted (lit "No memories found") = formatted
      | inl error =>
          error = TypeError /\
          (exists record,
              In record (firstn 5 (r :: rs)) /\
              format_record record = inl TypeError) /\
          snd (handler config client (search_request args)) =
            inr {| content :=
                     [ {| type := lit "text";
                          text := lit "Error: " ++ TypeError_message |} ];
                   isError := true |}
      end) /\
  (forall (r : value) (m : jsstring) (x : number),
      optional_get r (lit "memory") = VStr m ->
      optional_get r (lit "score") = VNum x ->
      Number_isFinite x = true ->
      format_record r =
      inr (normalizeOneLine m ++ lit " (relevance: "
             ++ Number_toString (StringToNumber (Number_toFixed x 3))
             ++ lit ")")) /\
  (forall records : list value,
      (forall record, In record records ->
         exists m x,
           optional_get record (lit "memory") = VStr m /\
           optional_get record (lit "score") = VNum x /\
           Number_isFinite x = true) ->
      exists parts, Array_map format_record records = inr parts) /\
  snd (handler sample_config (client_returning sample_records)
         (search_request ((lit "returnAll", VBool true) :: sample_args))) =
  inr (text_result
         (lit "Loves hiking (relevance: 0.876); Owns a dog (relevance: 0.5)")
         false).
Proof.
  split; [| split; [| split]].
  - intros config client args r rs Hall Hres.
    rewrite (handler_search_resolved _ _ _ _ Hres).
    unfold search_text; rewrite Hall.
    destruct (Array_map format_record (firstn 5 (r :: rs)))
      as [error | parts] eqn:E; cbn [and_then].
    + destruct (Array_map_throws _ _ _ E) as (record & Hin & Hrec).
      pose proof (format_record_throws _ _ Hrec) as ->.
      split; [reflexivity |]. split; [| reflexivity].
      exists record. now split.
    + set (formatted := join (lit "; ") parts).
      pose proof (Array_map_returns _ _ _ E) as Hparts.
      assert (Hne : formatted <> []).
      { unfold formatted. cbn [firstn] in Hparts.
        inversion Hparts as [| ? part ? parts' Hpart Hrest]; subst.
        apply join_nonempty. exact (format_record_nonempty _ _ Hpart). }
      split; [exact Hparts |]. split; [reflexivity |].
      split; [exact Hne |].
      destruct formatted; [contradiction | reflexivity].
  - exact format_record_typed.
  - intros records Htyped. apply Array_map_total.
    intros record Hin. destruct (Htyped _ Hin) as (m & x & Hm & Hs & Hx).
    eexists. exact (format_record_typed _ _ _ Hm Hs Hx).
  - vm_compute; reflexivity.
Qed.

Lemma search_returnAll_listing_witness :
  snd (handler sample_config (client_returning sample_records)
         (search_request ((lit "returnAll", VBool true) :: sample_args))) =
    inr (text_result
           (lit "Loves hiking (relevance: 0.876); Owns a dog (relevance: 0.5)")
           false) /\
  snd (handler sample_config (client_returning no_score_string)
         (search_request ((lit "returnAll", VBool true) :: sample_args))) =
    inr (text_result (lit "Error: " ++ TypeError_message) true).
Proof.
  split.
  - pose proof (proj1 search_returnAll_listing sample_config
                  (client_returning sample_records)
                  ((lit "returnAll", VBool true) :: sample_args)
                  (index0 (elements sample_records))
                  (skipn 1 (elements sample_records)) eq_refl eq_refl) as H.
    destruct (Array_map format_record _) as [error | parts] eqn:E in H;
      vm_compute in E; [discriminate E |].
    injection E as <-. destruct H as (_ & H & _). exact H.
  - pose proof (proj1 search_returnAll_listing sample_config
                  (client_returning no_score_string)
                  ((lit "returnAll", VBool true) :: sample_args)
                  (index0 (elements no_score_string)) [] eq_refl eq_refl)
      as H.
    destruct (Array_map format_record _) as [error | parts] eqn:E in H;
      vm_compute in E; [| discriminate E].
    destruct H as (_ & _ & H). exact H.
Defined.




(** ** The claims about score coercion *)

Lemma frac_of_den_pos m e : (0 < snd (frac_of m e))%Z.
Proof.
  destruct e as [| p | p]; simpl; lia.
Qed.

(** [fixed_integer] is the nearest integer to [num / den * 10^f], the
    larger one on a tie. *)
Lemma fixed_integer_nearest num den f :
  (0 < den)%Z ->
  let n := fixed_integer num den f in
  (2 * den * n <= 2 * num * 10 ^ Z.of_nat f + den < 2 * den * (n + 1))%Z.
Proof.
  intros Hden n. unfold n, fixed_integer.
  set (a := (2 * num * 10 ^ Z.of_nat f + den)%Z).
  assert (Hb : (0 < 2 * den)%Z) by lia.
  pose proof (Z.mul_div_le a _ Hb).
  pose proof (Z.mul_succ_div_gt a _ Hb).
  lia.
Qed.

Lemma toFixed_finite s m e f :
  (fst (frac_of m e) < 10 ^ 21 * snd (frac_of m e))%Z ->
  Number_toFixed (S754_finite s m e) f =
  (if s then lit "-" else [])
    ++ fixed_digits (fixed_integer (fst (frac_of m e)) (snd (frac_of m e)) f) f.
Proof.
  unfold Number_toFixed. destruct (frac_of m e) as [num den]; cbn [fst snd].
  intros H. apply Z.leb_gt in H. now rewrite H.
Qed.

(** A record whose score has no number cannot be rendered. *)
Lemma format_record_score_throws r error :
  ToNumber (nullish_or (optional_get r (lit "score")) (VNum pos_zero))
    = inl error ->
  format_record r = inl TypeError.
Proof.
  intros H. unfold format_record, and_then.
  destruct (ToString _) as [e | text] eqn:Em;
    [now rewrite (ToString_throws _ _ Em) |].
  unfold round, and_then. rewrite H.
  now rewrite (ToNumber_throws _ _ H).
Qed.

(** C6 as the specification words it does not hold: a score that is not
    numeric is not rendered as 0, the record shows it as it is. *)
Lemma non_numeric_score_is_kept :
  format_record
    (VObj [ (lit "memory", VStr (lit "Owns a dog"));
            (lit "score", VStr (lit "high")) ]) =
    inr (lit "Owns a dog (relevance: high)") /\
  format_record
    (VObj [ (lit "memory", VStr (lit "Owns a dog"));
            (lit "score", VStr (lit "high")) ]) <>
    inr (lit "Owns a dog (relevance: 0)").
Proof. split; vm_compute; [reflexivity | discriminate]. Qed.

(** C6, amended: in the score coercion [round(r?.score ?? 0)] an absent
    score ([undefined] or [null]) is rendered as [0].  A score whose
    numeric conversion is not finite (a non-numeric string, a plain
    object, an infinity) is not replaced by 0: [round] returns it
    unchanged.  A score whose numeric conversion [x] is finite becomes
    [Number(x.toFixed(3))], and below [10^21] the digits of [toFixed(3)]
    are those of the integer nearest to [1000 * |x|].  The coercion can
    fail: a score with no numeric conversion (an object with an own
    [toString] property, an array that holds one) makes [Number] throw a
    [TypeError], and when such a record is among the first five of a
    [returnAll] listing the result is the error of the catch-all. *)
Theorem score_coercion :
  (forall score : value,
      score = VUndefined \/ score = VNull ->
      and_then (round (nullish_or score (VNum pos_zero)) 3) ToString
      = inr (lit "0")) /\
  (forall (score : value) (x : number),
      ToNumber (nullish_or score (VNum pos_zero)) = inr x ->
      Number_isFinite x = false ->
      round (nullish_or score (VNum pos_zero)) 3 = inr score) /\
  (forall (score : value) (x : number),
      ToNumber score = inr x ->
      Number_isFinite x = true ->
      round score 3 = inr (VNum (StringToNumber (Number_toFixed x 3)))) /\
  (forall (s : bool) (m : positive) (e : Z),
      let num := fst (frac_of m e) in
      let den := snd (frac_of m e) in
      (num < 10 ^ 21 * den)%Z ->
      exists n : Z,
        Number_toFixed (S754_finite s m e) 3 =
          (if s then lit "-" else []) ++ fixed_digits n 3 /\
        (0 < den)%Z /\
        (2 * den * n <= 2 * num * 1000 + den < 2 * den * (n + 1))%Z) /\
  (forall (score : value) (error : thrown),
      ToNumber score = inl error ->
      error = TypeError /\ round score 3 = inl TypeError) /\
  (forall props : list (jsstring * value),
      has_own (lit "toString") props = true ->
      ToNumber (VObj props) = inl TypeError) /\
  (forall (config : Config) (client : MemoryClient)
          (args : list (jsstring * value)) (r : value) (rs : list value)
          (record : value) (error : thrown),
      ToBoolean (lookup (lit "returnAll") args) = true ->
      search_outcome config client args = inr (VArr (r :: rs)) ->
      In record (firstn 5 (r :: rs)) ->
      ToNumber (nullish_or (optional_get record (lit "score"))
                  (VNum pos_zero)) = inl error ->
      snd (handler config client (search_request args)) =
      inr (text_result (lit "Error: " ++ TypeError_message) true)).
Proof.
  split; [| split; [| split; [| split; [| split; [| split]]]]].
  - intros score [-> | ->]; vm_compute; reflexivity.
  - intros score x H Hx. unfold round, and_then. rewrite H, Hx.
    destruct score; try reflexivity;
      cbn [nullish_or ToNumber] in H; injection H as <-; discriminate Hx.
  - intros score x H Hx. unfold round, and_then. now rewrite H, Hx.
  - intros s m e num den H.
    exists (fixed_integer num den 3). split; [| split].
    + now apply toFixed_finite.
    + apply frac_of_den_pos.
    + apply (fixed_integer_nearest num den 3), frac_of_den_pos.
  - intros score error H. pose proof (ToNumber_throws _ _ H) as ->.
    split; [reflexivity |]. unfold round, and_then. now rewrite H.
  - intros props H. cbn [ToNumber ToString]. now rewrite H.
  - intros config client args r rs record error Hall Hres Hin Hscore.
    rewrite (handler_search_resolved _ _ _ _ Hres).
    unfold search_text. rewrite Hall.
    rewrite (Array_map_one_throws format_record _ record TypeError
               format_record_throws Hin
               (format_record_score_throws _ _ Hscore)).
    reflexivity.
Qed.

Lemma score_coercion_witness :
  round (nullish_or (VStr (lit "high")) (VNum pos_zero)) 3
    = inr (VStr (lit "high"))
  /\ and_then (round (nullish_or VUndefined (VNum pos_zero)) 3) ToString
     = inr (lit "0")
  /\ round (VNum score_0_8765) 3 =
     inr (VNum (StringToNumber (Number_toFixed score_0_8765 3)))
  /\ round no_string 3 = inl TypeError
  /\ snd (handler sample_config (client_returning no_score_string)
            (search_request ((lit "returnAll", VBool true) :: sample_args))) =
     inr (text_result (lit "Error: " ++ TypeError_message) true).
Proof.
  split; [| split; [| split; [| split]]].
  - apply (proj1 (proj2 score_coercion) (VStr (lit "high")) NaN);
      reflexivity.
  - apply (proj1 score_coercion VUndefined). now left.
  - apply (proj1 (proj2 (proj2 score_coercion)) (VNum score_0_8765)
             score_0_8765); reflexivity.
  - apply (proj1 (proj2 (proj2 (proj2 (proj2 score_coercion)))) no_string
             TypeError). reflexivity.
  - apply (proj2 (proj2 (proj2 (proj2 (proj2 (proj2 score_coercion)))))
             sample_config (client_returning no_score_string)
             ((lit "returnAll", VBool true) :: sample_args)
             (index0 (elements no_score_string)) []
             (index0 (elements no_score_string)) TypeError);
      solve [reflexivity | now left].
Defined.

Lemma normalizeOneLine_idempotent_witness :
  normalizeOneLine (lit "Loves hiking") = lit "Loves hiking".
Proof.
  apply (proj2 normalizeOneLine_idempotent (lit "Loves hiking")).
  reflexivity.
Defined.

(** * Further properties of the source *)

(** ** [truncate] *)

Lemma slice0_nonneg s e :
  (0 <= e)%Z -> String_slice0 s e = firstn (Z.to_nat e) s.
Proof.
  intros He. unfold String_slice0.
  destruct (e <? 0)%Z eqn:E; [apply Z.ltb_lt in E; lia |].
  destruct (Z.le_ge_cases e (Z.of_nat (List.length s))) as [H | H].
  - now rewrite Z.min_l.
  - rewrite Z.min_r, Nat2Z.id, firstn_all by assumption.
    symmetry; apply firstn_all2; lia.
Qed.

Lemma slice0_length s e :
  List.length (String_slice0 s e) =
  Z.to_nat (if (e <? 0)%Z then Z.max (Z.of_nat (List.length s) + e) 0
            else Z.min e (Z.of_nat (List.length s))).
Proof.
  unfold String_slice0. rewrite length_firstn.
  destruct (e <? 0)%Z eqn:E; lia.
Qed.

Lemma truncate_short (s : jsstring) (max : Z) :
  s = [] \/ (Z.of_nat (List.length s) <= max)%Z ->
  truncate s max = s.
Proof.
  intros [-> | H]; [reflexivity |].
  unfold truncate. destruct s; [reflexivity |].
  destruct (Z.of_nat _ >? max)%Z eqn:E; [| reflexivity].
  apply Z.gtb_lt in E; lia.
Qed.

(** X1: A string that fits, the empty string included, is returned as it
    is. *)
Theorem truncate_fits (s : jsstring) (max : Z) :
  s = [] \/ (Z.of_nat (List.length s) <= max)%Z ->
  truncate s max = s.
Proof. exact (truncate_short s max). Qed.

Lemma truncate_fits_witness :
  truncate (lit "Owns a dog") 10 = lit "Owns a dog" /\ truncate [] (-3) = [].
Proof.
  split; apply truncate_fits; [right; vm_compute; discriminate | now left].
Defined.

Lemma truncate_long (s : jsstring) (max : Z) :
  (1 <= max < Z.of_nat (List.length s))%Z ->
  truncate s max = firstn (Z.to_nat (max - 1)) s ++ [ELLIPSIS] /\
  Z.of_nat (List.length (truncate s max)) = max /\
  last (truncate s max) 0%N = ELLIPSIS.
Proof.
  intros [H1 H2].
  assert (E : truncate s max = firstn (Z.to_nat (max - 1)) s ++ [ELLIPSIS]).
  { unfold truncate. destruct s as [| c s]; [simpl in H2; lia |].
    destruct (Z.of_nat _ >? max)%Z eqn:E;
      [| rewrite Z.gtb_ltb in E; apply Z.ltb_ge in E; lia].
    rewrite slice0_nonneg by lia. reflexivity. }
  rewrite E. split; [reflexivity | split].
  - rewrite length_app, length_firstn; simpl. lia.
  - apply last_last.
Qed.

(** X2: A string longer than [max >= 1] is cut to exactly [max] code units:
    its first [max - 1] code units and the ellipsis. *)
Theorem truncate_longer (s : jsstring) (max : Z) :
  (1 <= max < Z.of_nat (List.length s))%Z ->
  truncate s max = firstn (Z.to_nat (max - 1)) s ++ [ELLIPSIS] /\
  Z.of_nat (List.length (truncate s max)) = max /\
  last (truncate s max) 0%N = ELLIPSIS.
Proof. exact (truncate_long s max). Qed.

Lemma truncate_longer_witness :
  truncate (lit "Loves hiking") 6 = lit "Loves" ++ [ELLIPSIS] /\
  Z.of_nat (List.length (truncate (lit "Loves hiking") 6)) = 6%Z /\
  last (truncate (lit "Loves hiking") 6) 0%N = ELLIPSIS.
Proof. apply (truncate_longer (lit "Loves hiking") 6). vm_compute. now split. Defined.

(** X3: [truncate] never lengthens a string, whatever [max] is, and for
    [max >= 1] the result has at most [max] code units. *)
Theorem truncate_length_bound (s : jsstring) (max : Z) :
  List.length (truncate s max) <= List.length s /\
  ((1 <= max)%Z -> (Z.of_nat (List.length (truncate s max)) <= max)%Z).
Proof.
  unfold truncate. destruct s as [| c s]; [simpl; split; lia |].
  destruct (Z.of_nat _ >? max)%Z eqn:E.
  - apply Z.gtb_lt in E.
    rewrite length_app, slice0_length; cbn [List.length] in *.
    destruct (max - 1 <? 0)%Z eqn:E'; split; try lia.
  - rewrite Z.gtb_ltb in E; apply Z.ltb_ge in E. split; lia.
Qed.

Lemma truncate_length_bound_witness :
  (Z.of_nat (List.length (truncate (lit "Loves hiking") 3)) <= 3)%Z.
Proof. apply (truncate_length_bound (lit "Loves hiking") 3). lia. Defined.

Lemma shorter_than_nonpositive (s : jsstring) (max : Z) :
  s <> [] -> (max <= 0)%Z ->
  truncate s max =
    firstn (List.length s - Z.to_nat (1 - max)) s ++ [ELLIPSIS] /\
  (max < Z.of_nat (List.length (truncate s max)))%Z.
Proof.
  intros Hs Hmax.
  assert (E : truncate s max =
              firstn (List.length s - Z.to_nat (1 - max)) s ++ [ELLIPSIS]).
  { unfold truncate. destruct s as [| c s]; [contradiction |].
    replace (Z.of_nat (List.length (c :: s)) >? max)%Z with true
      by (symmetry; apply Z.gtb_lt; cbn [List.length]; lia).
    unfold String_slice0.
    replace (max - 1 <? 0)%Z with true by (symmetry; apply Z.ltb_lt; lia).
    do 2 f_equal. lia. }
  rewrite E. split; [reflexivity |].
  rewrite length_app; simpl. lia.
Qed.

(** X4: Truncating twice with the same [max >= 0] is truncating once. *)
Theorem truncate_idempotent (s : jsstring) (max : Z) :
  (0 <= max)%Z ->
  truncate (truncate s max) max = truncate s max.
Proof.
  intros Hmax.
  destruct (Z.ltb_spec max (Z.of_nat (List.length s))) as [Hlong | Hfits];
    [| now rewrite !(truncate_short s max) by (now right)].
  destruct (Z.eq_dec max 0) as [-> | Hpos].
  - (* [slice(0, -1)]: the last code unit is replaced by the ellipsis *)
    assert (Hs : s <> []) by (intros ->; simpl in Hlong; lia).
    destruct (shorter_than_nonpositive s 0 Hs (Z.le_refl 0)) as [E _].
    change (Z.to_nat (1 - 0)) with 1 in E.
    set (p := firstn (List.length s - 1) s) in *.
    assert (Hp : List.length p = List.length s - 1)
      by (unfold p; rewrite length_firstn; lia).
    rewrite E.
    destruct (shorter_than_nonpositive (p ++ [ELLIPSIS]) 0) as [E' _];
      [now destruct p | lia |].
    rewrite E'. f_equal.
    change (Z.to_nat (1 - 0)) with 1.
    rewrite length_app; cbn [List.length].
    replace (List.length p + 1 - 1) with (List.length p + 0) by lia.
    rewrite firstn_app_2. simpl. apply app_nil_r.
  - apply truncate_short. right.
    destruct (truncate_long s max) as (_ & H & _); lia.
Qed.

Lemma truncate_idempotent_witness :
  truncate (truncate (lit "Loves hiking") 6) 6 = truncate (lit "Loves hiking") 6
  /\ truncate (truncate (lit "Loves hiking") 0) 0
     = truncate (lit "Loves hiking") 0.
Proof. split; apply truncate_idempotent; lia. Defined.

(** X5: The bound does not hold for [max <= 0]: a non-empty string then keeps
    all but its last [1 - max] code units and gains the ellipsis, so the
    result is never empty. *)
Theorem truncate_nonpositive_max (s : jsstring) (max : Z) :
  s <> [] -> (max <= 0)%Z ->
  truncate s max =
    firstn (List.length s - Z.to_nat (1 - max)) s ++ [ELLIPSIS] /\
  (max < Z.of_nat (List.length (truncate s max)))%Z.
Proof. exact (shorter_than_nonpositive s max). Qed.

Lemma truncate_nonpositive_max_witness :
  truncate (lit "abc") 0 = lit "ab" ++ [ELLIPSIS] /\
  (0 < Z.of_nat (List.length (truncate (lit "abc") 0)))%Z.
Proof.
  apply (truncate_nonpositive_max (lit "abc") 0); [vm_compute; discriminate | lia].
Defined.

(** ** More on [normalizeOneLine] *)

Lemma ink_replace_runs cls b s :
  (forall c, cls c = true -> is_space c = true) ->
  filter is_ink (replace_runs cls b s) = filter is_ink s.
Proof.
  intros Hcls. revert b; induction s as [| c s IH]; intros b;
    cbn [replace_runs filter]; [reflexivity |].
  assert (Hink : is_ink c = negb (is_space c)) by reflexivity.
  assert (Hsp : is_ink SPACE = false) by reflexivity.
  destruct (cls c) eqn:Ec.
  - rewrite Hink, (Hcls _ Ec); cbn [negb].
    destruct b; cbn [filter]; rewrite ?Hsp; apply IH.
  - cbn [filter]. now rewrite IH.
Qed.

Lemma ink_trimStart s : filter is_ink (trimStart s) = filter is_ink s.
Proof.
  induction s as [| c s IH]; cbn [trimStart filter]; [reflexivity |].
  assert (Hink : is_ink c = negb (is_space c)) by reflexivity.
  destruct (is_space c); rewrite Hink; cbn [negb]; [exact IH |].
  cbn [filter]. now rewrite Hink.
Qed.

Lemma ink_strip_end s : filter is_ink (strip_end s) = filter is_ink s.
Proof.
  induction s as [| c s IH]; cbn [strip_end filter]; [reflexivity |].
  assert (Hink : is_ink c = negb (is_space c)) by reflexivity.
  rewrite <- IH. destruct (strip_end s) as [| d t]; [| reflexivity].
  rewrite Hink. destruct (is_space c); cbn [filter negb]; [reflexivity |].
  now rewrite Hink.
Qed.

Lemma length_replace_runs cls b s :
  List.length (replace_runs cls b s) <= List.length s.
Proof.
  revert b; induction s as [| c s IH]; intros b; simpl; [lia |].
  destruct (cls c); [destruct b |]; simpl;
    [specialize (IH true) | specialize (IH true) | specialize (IH false)];
    lia.
Qed.

Lemma length_trimStart s : List.length (trimStart s) <= List.length s.
Proof.
  induction s as [| c s IH]; simpl; [lia |].
  destruct (is_space c); simpl; lia.
Qed.

Lemma length_strip_end s : List.length (strip_end s) <= List.length s.
Proof.
  induction s as [| c s IH]; simpl; [lia |].
  destruct (strip_end s); [destruct (is_space c) |]; simpl in *; lia.
Qed.

Lemma normalize_ink s : filter is_ink (normalizeOneLine s) = filter is_ink s.
Proof.
  unfold normalizeOneLine, trim, replace_all_runs.
  rewrite trimEnd_strip_end, ink_strip_end, ink_trimStart.
  rewrite ink_replace_runs by trivial.
  apply ink_replace_runs, crlftab_is_space.
Qed.

(** X6: The normalizer only touches white space: the other code units of the
    string are all kept, in their order. *)
Theorem normalizeOneLine_keeps_ink (s : jsstring) :
  filter is_ink (normalizeOneLine s) = filter is_ink s.
Proof. exact (normalize_ink s). Qed.

(** X7: The normalizer never lengthens a string. *)
Theorem normalizeOneLine_length (s : jsstring) :
  List.length (normalizeOneLine s) <= List.length s.
Proof.
  unfold normalizeOneLine, trim, replace_all_runs.
  rewrite trimEnd_strip_end.
  pose proof (length_strip_end
    (trimStart (replace_runs is_space false (replace_runs is_crlftab false s)))).
  pose proof (length_trimStart
    (replace_runs is_space false (replace_runs is_crlftab false s))).
  pose proof (length_replace_runs is_space false
    (replace_runs is_crlftab false s)).
  pose proof (length_replace_runs is_crlftab false s).
  lia.
Qed.

Lemma no_ink_all_space s :
  filter is_ink s = [] <-> forallb is_space s = true.
Proof.
  induction s as [| c s IH]; cbn [filter forallb]; [tauto |].
  assert (Hink : is_ink c = negb (is_space c)) by reflexivity.
  rewrite Hink. destruct (is_space c); cbn [negb andb]; [exact IH |].
  split; discriminate.
Qed.

Lemma one_line_no_ink s : one_line s = true -> filter is_ink s = [] -> s = [].
Proof.
  destruct s as [| c s]; [reflexivity |]. cbn [one_line tight filter].
  assert (Hink : is_ink c = negb (is_space c)) by reflexivity.
  rewrite Hink. destruct (is_space c); cbn [negb]; [| discriminate].
  rewrite andb_false_r; discriminate.
Qed.

Lemma normalize_empty_iff s :
  normalizeOneLine s = [] <-> forallb is_space s = true.
Proof.
  rewrite <- no_ink_all_space, <- normalize_ink. split.
  - now intros ->.
  - apply one_line_no_ink, normalizeOneLine_one_line.
Qed.

(** X8: The normalized string is empty exactly when the string holds nothing
    but white space (the empty string included). *)
Theorem normalizeOneLine_empty_iff (s : jsstring) :
  normalizeOneLine s = [] <-> forallb is_space s = true.
Proof. exact (normalize_empty_iff s). Qed.

(** ** More on the call-tool handler and its helpers *)

Lemma defaultUserId_nonempty config : defaultUserId config <> [].
Proof.
  unfold defaultUserId, string_or.
  destruct (userId config); discriminate.
Qed.

Lemma user_id_truthy config u :
  ToBoolean (logical_or u (VStr (defaultUserId config))) = true.
Proof.
  unfold logical_or. destruct (ToBoolean u) eqn:E; [exact E |].
  pose proof (defaultUserId_nonempty config).
  simpl. now destruct (defaultUserId config).
Qed.

Lemma handler_search_by_outcome config c c' args :
  search_outcome config c args = search_outcome config c' args ->
  handler config c (search_request args)
  = handler config c' (search_request args).
Proof.
  intros H.
  destruct (search_outcome config c args) as [error | results] eqn:E;
    symmetry in H.
  - now rewrite (handler_search_failed _ _ _ _ E),
               (handler_search_failed _ _ _ _ H).
  - now rewrite (handler_search_resolved _ _ _ _ E),
               (handler_search_resolved _ _ _ _ H).
Qed.

Lemma handler_cases config client request :
  (arguments request = None /\
   handler config client request =
   ([], inr (text_result (lit "Error: No arguments provided") true))) \/
  (exists args, request = add_request args) \/
  (exists args, request = search_request args) \/
  (exists args,
     arguments request = Some args /\
     name request <> lit "add-memory" /\
     name request <> lit "search-memories" /\
     handler config client request =
     ([], inr (text_result (lit "Unknown tool: " ++ name request) true))).
Proof.
  destruct request as [n [args |]].
  - destruct (str_eqb n (lit "add-memory")) eqn:Ea.
    + apply str_eqb_eq in Ea; subst n. right; left. now exists args.
    + destruct (str_eqb n (lit "search-memories")) eqn:Es.
      * apply str_eqb_eq in Es; subst n. right; right; left. now exists args.
      * right; right; right. exists args. cbn [name arguments].
        rewrite handler_unknown_tool by assumption.
        repeat split; intros ->; discriminate.
  - left. now rewrite handler_no_arguments.
Qed.

(** X9: The handler uses the memory store only through the operation of the
    tool that is called, and only with a well-formed call: for add-memory
    the two-message exchange and a truthy [user_id], for search-memories a
    truthy [user_id].  Two stores that agree on those calls give the same
    result and the same console output; for any other request the store
    is not used at all. *)
Theorem handler_uses_own_operation (config : Config)
    (c c' : MemoryClient) (request : CallToolRequest) :
  (name request = lit "add-memory" ->
   forall content o, ToBoolean (user_id o) = true ->
     add c (exchange content) o = add c' (exchange content) o) ->
  (name request = lit "search-memories" ->
   forall query o, ToBoolean (user_id o) = true ->
     search c query o = search c' query o) ->
  handler config c request = handler config c' request.
Proof.
  intros Hadd Hsearch.
  destruct (handler_cases config c request)
    as [[Hn H] | [[args ->] | [[args ->] | (args & Ha & H1 & H2 & H)]]].
  - rewrite H. destruct request as [n [a |]]; [discriminate |].
    now rewrite handler_no_arguments.
  - rewrite !handler_add_memory. unfold add_outcome.
    fold (exchange (lookup (lit "content") args)).
    rewrite (Hadd eq_refl); [reflexivity | apply user_id_truthy].
  - apply handler_search_by_outcome. unfold search_outcome.
    apply (Hsearch eq_refl), user_id_truthy.
  - rewrite H. destruct request as [n [a |]]; [| discriminate].
    cbn [name] in *. apply str_eqb_neq in H1, H2.
    now rewrite handler_unknown_tool.
Qed.

Lemma handler_uses_own_operation_witness :
  handler sample_config failing_client (add_request []) =
  handler sample_config picky_client (add_request []) /\
  handler sample_config failing_client (search_request []) =
  handler sample_config picky_client (search_request []).
Proof.
  split; apply handler_uses_own_operation; intros _ x o H;
    unfold failing_client, picky_client; cbn [add search];
    now rewrite H.
Defined.

(** X10: The user id a call is made under: the [userId] argument when it is
    truthy, otherwise the configured id, otherwise ["mem0-mcp-user"]; it
    is never falsy.  An add-memory call stores under that id. *)
Theorem resolved_user_id (config : Config) (client : MemoryClient)
    (args : list (jsstring * value)) :
  let given := lookup (lit "userId") args in
  let uid :=
    if ToBoolean given then given
    else VStr (match userId config with
               | [] => lit "mem0-mcp-user"
               | configured => configured
               end) in
  ToBoolean uid = true /\
  add_outcome config client args =
    add client (exchange (lookup (lit "content") args)) {| user_id := uid |} /\
  search_outcome config client args =
    search client (lookup (lit "query") args) {| user_id := uid |} /\
  handler config client (add_request args) =
    (match add client (exchange (lookup (lit "content") args))
             {| user_id := uid |} with
     | inl error => [(lit "Error adding memory:", error)]
     | inr _ => []
     end,
     inr (text_result (lit "Memory added successfully") false)).
Proof.
  intros given uid.
  assert (E : uid = logical_or given (VStr (defaultUserId config))).
  { unfold uid, logical_or, defaultUserId, string_or.
    now destruct (ToBoolean given), (userId config). }
  rewrite E. split; [apply user_id_truthy |].
  split; [reflexivity |]. split; [reflexivity |].
  apply handler_add_memory.
Qed.

(** X11: [addMemory] and [searchMemories] never throw: [addMemory] returns
    [true] exactly when the add operation resolves; [searchMemories]
    returns what the search operation resolved with, and the empty array
    when it rejects. *)
Theorem adapter_wrappers_never_throw (config : Config)
    (client : MemoryClient) (a userId : value) :
  let o := {| user_id := logical_or userId (VStr (defaultUserId config)) |} in
  (exists flag,
      snd (addMemory config client a userId) = inr flag /\
      (flag = true <-> exists v, add client (exchange a) o = inr v)) /\
  (exists results,
      snd (searchMemories config client a userId) = inr results /\
      (forall v, search client a o = inr v -> results = v) /\
      (forall error, search client a o = inl error -> results = VArr [])).
Proof.
  intros o. split.
  - unfold addMemory. fold (exchange a). fold o.
    destruct (add client (exchange a) o) as [error | v].
    + exists false. split; [reflexivity |].
      split; [discriminate | intros [v H]; discriminate H].
    + exists true. split; [reflexivity |]. split; eauto.
  - unfold searchMemories. fold o.
    destruct (search client a o) as [error | v].
    + exists (VArr []). split; [reflexivity |].
      split; [discriminate | reflexivity].
    + exists v. split; [reflexivity |].
      split; [now intros ? [= ->] | discriminate].
Qed.

(** X12: What reaches the console: nothing, unless the call of the memory
    store rejects; then the single line of [addMemory] or
    [searchMemories] with the error, while the result itself is not an
    error. *)
Theorem console_output (config : Config) (client : MemoryClient)
    (request : CallToolRequest) :
  (fst (handler config client request) = [] /\
   forall args error,
     arguments request = Some args ->
     (name request = lit "add-memory" ->
      add_outcome config client args <> inl error) /\
     (name request = lit "search-memories" ->
      search_outcome config client args <> inl error)) \/
  (exists args error t,
     request = add_request args /\
     add_outcome config client args = inl error /\
     handler config client request =
     ([(lit "Error adding memory:", error)], inr (text_result t false))) \/
  (exists args error t,
     request = search_request args /\
     search_outcome config client args = inl error /\
     handler config client request =
     ([(lit "Error searching memories:", error)],
      inr (text_result t false))).
Proof.
  destruct (handler_cases config client request)
    as [[Hn H] | [[args ->] | [[args ->] | (args & Ha & H1 & H2 & H)]]].
  - left. rewrite H. split; [reflexivity |]. intros ? ? E; congruence.
  - rewrite handler_add_memory.
    destruct (add_outcome config client args) as [error | v] eqn:E.
    + right; left. exists args, error. eauto.
    + left. split; [reflexivity |].
      intros args' error [= <-]. split; [congruence |].
      intros Hname; vm_compute in Hname; discriminate Hname.
  - destruct (search_outcome config client args) as [error | v] eqn:E.
    + right; right. exists args, error.
      rewrite (handler_search_failed _ _ _ _ E). eauto.
    + left. rewrite (handler_search_resolved _ _ _ _ E).
      split; [reflexivity |].
      intros args' error [= <-]. split; [| congruence].
      intros Hname; vm_compute in Hname; discriminate Hname.
  - left. rewrite H. split; [reflexivity |].
    intros ? ? _. split; intros Hname; contradiction.
Qed.

(** X13: Dispatch agrees with the tool listing: the result is not an
    error exactly when the arguments are present, the name is one of the
    tools that list-tools returns, and building the text of a search does
    not throw.  An add-memory call with arguments is never an error
    result, whatever the arguments hold or lack and whatever the memory
    store does. *)
Theorem isError_iff_not_listed (config : Config) (client : MemoryClient)
    (request : CallToolRequest) (result : ToolResult) :
  snd (handler config client request) = inr result ->
  (isError result = false <->
   arguments request <> None /\
   In (name request) (map tool_name ListTools_handler) /\
   formatting_throws config client request = false) /\
  (arguments request <> None -> name request = lit "add-memory" ->
   isError result = false).
Proof.
  intros Hres.
  destruct (handler_cases config client request)
    as [[Hn H] | [[args ->] | [[args ->] | (args & Ha & H1 & H2 & H)]]].
  - rewrite H in Hres. injection Hres as <-. cbn [isError text_result].
    split; [| intros Hsome; contradiction].
    split; [discriminate | intros [Hsome _]; contradiction].
  - rewrite handler_add_memory in Hres. injection Hres as <-.
    split; [| reflexivity].
    split; [| reflexivity]. intros _.
    split; [discriminate | split; [now left | reflexivity]].
  - split; [| intros _ Hname; vm_compute in Hname; discriminate Hname].
    unfold formatting_throws; cbn [arguments name search_request].
    rewrite str_eqb_refl; cbn [andb].
    destruct (search_outcome config client args) as [error | results] eqn:E.
    + rewrite (handler_search_failed _ _ _ _ E) in Hres.
      injection Hres as <-.
      split; [| reflexivity]. intros _.
      split; [discriminate | split; [right; now left | reflexivity]].
    + rewrite (handler_search_resolved _ _ _ _ E) in Hres.
      destruct results as [| | b | x | s | [| r rs] | props];
        try (injection Hres as <-;
             split; [| reflexivity]; intros _;
             split; [discriminate | split; [right; now left | reflexivity]]).
      destruct (search_text args r rs) as [error | t];
        injection Hres as <-; cbn [isError text_result].
      * split; [discriminate | intros (_ & _ & Hf); discriminate Hf].
      * split; [| reflexivity]. intros _.
        split; [discriminate | split; [right; now left | reflexivity]].
  - rewrite H in Hres. injection Hres as <-. cbn [isError text_result].
    split; [| intros _ Hname; contradiction].
    split; [discriminate |].
    intros (_ & [Hin | [Hin | []]] & _); symmetry in Hin; contradiction.
Qed.

Lemma isError_iff_not_listed_witness :
  (isError (text_result (lit "Memory added successfully") false) = false <->
   arguments (add_request []) <> None /\
   In (name (add_request [])) (map tool_name ListTools_handler) /\
   formatting_throws sample_config failing_client (add_request []) = false) /\
  (arguments (add_request []) <> None ->
   name (add_request []) = lit "add-memory" ->
   isError (text_result (lit "Memory added successfully") false) = false).
Proof.
  apply (isError_iff_not_listed sample_config failing_client (add_request [])).
  reflexivity.
Defined.

(** X14: Only the declared properties of a tool are read: two argument records
    that agree on the properties of the tool's input schema give the same
    result, so any other argument is ignored. *)
Theorem undeclared_arguments_ignored (config : Config)
    (client : MemoryClient) (tool : Tool)
    (args args' : list (jsstring * value)) :
  In tool ListTools_handler ->
  (forall key,
      In key (map fst (properties (inputSchema tool))) ->
      lookup key args = lookup key args') ->
  handler config client {| name := tool_name tool; arguments := Some args |}
  = handler config client
      {| name := tool_name tool; arguments := Some args' |}.
Proof.
  intros [<- | [<- | []]] Hsame.
  - change (handler config client (add_request args)
            = handler config client (add_request args')).
    rewrite !handler_add_memory. unfold add_outcome.
    rewrite (Hsame (lit "content")) by (simpl; tauto).
    rewrite (Hsame (lit "userId")) by (simpl; tauto).
    reflexivity.
  - change (handler config client (search_request args)
            = handler config client (search_request args')).
    assert (E : search_outcome config client args
                = search_outcome config client args').
    { unfold search_outcome.
      rewrite (Hsame (lit "query")) by (simpl; tauto).
      rewrite (Hsame (lit "userId")) by (simpl; tauto).
      reflexivity. }
    destruct (search_outcome config client args) as [error | results] eqn:E1;
      symmetry in E.
    + now rewrite (handler_search_failed _ _ _ _ E1),
                 (handler_search_failed _ _ _ _ E).
    + rewrite (handler_search_resolved _ _ _ _ E1),
              (handler_search_resolved _ _ _ _ E).
      destruct results as [| | b | x | s | [| r rs] | props];
        try reflexivity.
      unfold search_text.
      rewrite (Hsame (lit "returnAll")) by (simpl; tauto).
      reflexivity.
Qed.

Lemma undeclared_arguments_ignored_witness :
  handler sample_config (client_returning sample_records)
    (search_request sample_args)
  = handler sample_config (client_returning sample_records)
      (search_request ((lit "limit", VNum (of_Z 1)) :: sample_args)).
Proof.
  apply (undeclared_arguments_ignored sample_config
           (client_returning sample_records) SEARCH_MEMORIES_TOOL
           sample_args ((lit "limit", VNum (of_Z 1)) :: sample_args)).
  - right; now left.
  - intros key [<- | [<- | [<- | []]]]; reflexivity.
Defined.

(** X15: When the search resolves with anything but an array (an object that
    wraps the records, [null], a string), the answer is
    ["No memories found"], without an error and without a console line. *)
Theorem non_array_results (config : Config) (client : MemoryClient)
    (args : list (jsstring * value)) (results : value) :
  search_outcome config client args = inr results ->
  Array_isArray results = false ->
  handler config client (search_request args) =
  ([], inr {| content :=
                [ {| type := lit "text"; text := lit "No memories found" |} ];
              isError := false |}).
Proof.
  intros H Harr. rewrite (handler_search_resolved _ _ _ _ H).
  destruct results; try reflexivity; discriminate Harr.
Qed.

Lemma non_array_results_witness :
  handler sample_config
    (client_returning (VObj [(lit "results", sample_records)]))
    (search_request sample_args) =
  ([], inr (text_result (lit "No memories found") false)).
Proof.
  apply (non_array_results sample_config
           (client_returning (VObj [(lit "results", sample_records)]))
           sample_args (VObj [(lit "results", sample_records)]));
    reflexivity.
Defined.

(** X16: In the default mode, when the memory of the first record has a
    string (a string itself, or absent, which counts as the empty
    string), the fall-back ["No relevant memory found"] is given exactly
    when that string holds only white space; otherwise the text is the
    non-empty normalized memory. *)
Theorem default_mode_blank_memory (config : Config) (client : MemoryClient)
    (args : list (jsstring * value)) (r : value) (rs : list value)
    (m : jsstring) :
  ToBoolean (lookup (lit "returnAll") args) = false ->
  search_outcome config client args = inr (VArr (r :: rs)) ->
  ToString (nullish_or (optional_get r (lit "memory")) (VStr [])) = inr m ->
  snd (handler config client (search_request args)) =
    inr (text_result
           (if forallb is_space m then lit "No relevant memory found"
            else normalizeOneLine m) false) /\
  (forallb is_space m = false -> normalizeOneLine m <> []) /\
  (optional_get r (lit "memory") = VUndefined -> forallb is_space m = true).
Proof.
  intros Hall Hres Hm.
  rewrite (handler_search_resolved _ _ _ _ Hres).
  unfold search_text. rewrite Hall, Hm. cbn [and_then].
  pose proof (normalize_empty_iff m) as Hiff.
  split; [| split].
  - cbn [snd]. do 2 f_equal. unfold string_or.
    destruct (forallb is_space m) eqn:E.
    + now rewrite (proj2 Hiff eq_refl).
    + destruct (normalizeOneLine m) eqn:En; [| reflexivity].
      discriminate (proj1 Hiff eq_refl).
  - intros E En. rewrite (proj1 Hiff En) in E; discriminate E.
  - intros Hu. rewrite Hu in Hm. injection Hm as <-. reflexivity.
Qed.

Lemma default_mode_blank_memory_witness :
  snd (handler sample_config
         (client_returning
            (VArr [VObj [(lit "memory", VStr [32; 10; 9]%N)]]))
         (search_request sample_args)) =
  inr (text_result (lit "No relevant memory found") false).
Proof.
  refine (proj1 (default_mode_blank_memory sample_config
           (client_returning
              (VArr [VObj [(lit "memory", VStr [32; 10; 9]%N)]]))
           sample_args (VObj [(lit "memory", VStr [32; 10; 9]%N)]) []
           [32; 10; 9]%N _ _ _));
    reflexivity.
Defined.

(** X17: In the [returnAll] mode the records after the fifth are ignored: two
    result arrays with the same first five records give the same
    result. *)
Theorem returnAll_first_five (config : Config) (c c' : MemoryClient)
    (args : list (jsstring * value)) (l l' : list value) :
  ToBoolean (lookup (lit "returnAll") args) = true ->
  search_outcome config c args = inr (VArr l) ->
  search_outcome config c' args = inr (VArr l') ->
  firstn 5 l = firstn 5 l' ->
  handler config c (search_request args)
  = handler config c' (search_request args).
Proof.
  intros Hall H H' Hfive.
  rewrite (handler_search_resolved _ _ _ _ H),
          (handler_search_resolved _ _ _ _ H').
  destruct l as [| r rs], l' as [| r' rs'];
    [reflexivity | simpl in Hfive; discriminate Hfive
     | simpl in Hfive; discriminate Hfive |].
  unfold search_text. now rewrite Hall, Hfive.
Qed.

Lemma returnAll_first_five_witness :
  handler sample_config
    (client_returning
       (VArr (repeat (VObj [(lit "memory", VStr (lit "a"))]) 5)))
    (search_request ((lit "returnAll", VBool true) :: sample_args))
  = handler sample_config
      (client_returning
         (VArr (repeat (VObj [(lit "memory", VStr (lit "a"))]) 5
                ++ elements sample_records)))
      (search_request ((lit "returnAll", VBool true) :: sample_args)).
Proof.
  apply (returnAll_first_five sample_config _ _ _
           (repeat (VObj [(lit "memory", VStr (lit "a"))]) 5)
           (repeat (VObj [(lit "memory", VStr (lit "a"))]) 5
            ++ elements sample_records));
    reflexivity.
Defined.

Lemma string_or_nonempty s d : d <> [] -> string_or s d <> [].
Proof. unfold string_or; destruct s; [trivial | discriminate]. Qed.

(** X18: Every result carries a text that is not empty. *)
Theorem result_text_nonempty (config : Config) (client : MemoryClient)
    (request : CallToolRequest) :
  exists (t : jsstring) (err : bool),
    snd (handler config client request) =
      inr {| content := [ {| type := lit "text"; text := t |} ];
             isError := err |} /\
    t <> [].
Proof.
  destruct (handler_cases config client request)
    as [[Hn H] | [[args ->] | [[args ->] | (args & Ha & H1 & H2 & H)]]].
  - rewrite H. do 2 eexists. split; [reflexivity | discriminate].
  - rewrite handler_add_memory.
    do 2 eexists. split; [reflexivity | discriminate].
  - destruct (search_outcome config client args) as [error | results] eqn:E.
    + rewrite (handler_search_failed _ _ _ _ E).
      do 2 eexists. split; [reflexivity | discriminate].
    + rewrite (handler_search_resolved _ _ _ _ E).
      destruct results as [| | b | x | s | [| r rs] | props];
        try (do 2 eexists; split; [reflexivity | discriminate]).
      destruct (search_text args r rs) as [error | t] eqn:Et;
        [do 2 eexists; split; [reflexivity | discriminate] |].
      do 2 eexists; split; [reflexivity |].
      unfold search_text, and_then in Et.
      destruct (ToBoolean _);
        [destruct (Array_map _ _) | destruct (ToString _)];
        try discriminate Et; injection Et as <-;
        apply string_or_nonempty; discriminate.
  - rewrite H. do 2 eexists. split; [reflexivity | discriminate].
Qed.
